(** * NYC taxi dashboard: the data preparation and filtering pipeline of [app.py]

    A shallow embedding of the part of [src/app.py] that is not tied to the
    widget and chart toolkit: [load_data] (download if missing, clean, derive,
    cache), the payment-label column, the sidebar filter, the key metrics and
    the top pickup zones.

    Conventions of the embedding.
    - A pandas [DataFrame] is the list of its rows, a [Series] the list of its
      values; a boolean mask is a [list bool] and [df[mask]] is [getitem_mask].
    - [datetime64[us]] values are [option Z]: microseconds since the epoch,
      [None] for [NaT]. A [datetime.date] is its day number since 1970-01-01,
      an order isomorphism with the calendar.
    - [float64] columns are primitive binary64 floats; a missing value of such
      a column is [NaN], as pandas stores it.
    - Nullable integer columns are [option Z], nullable strings
      [option string].
    - [sort_values] on the counts is pandas' [nargsort] over the scalar
      quicksort of numpy, whose heapsort fallback is a parameter. *)

From Stdlib Require Import ZArith List String Ascii Bool Lia Floats.
From Stdlib Require Import Permutation Sorted DecimalString.
From Stdlib Require OrderedTypeEx DecimalN.
Import ListNotations.
Open Scope string_scope.
Open Scope Z_scope.

(* ------------------------------------------------------------------ *)
(** ** Timestamps and calendar dates *)

Module Time.

Definition us_per_second : Z := 1000000.
Definition us_per_hour : Z := 3600 * us_per_second.
Definition us_per_day : Z := 24 * us_per_hour.

(** Day number (days since 1970-01-01) of a proleptic Gregorian date. *)
Definition days_from_civil (y m d : Z) : Z :=
  let y' := if m <=? 2 then y - 1 else y in
  let era := y' / 400 in
  let yoe := y' - era * 400 in
  let mp := (m + 9) mod 12 in
  let doy := (153 * mp + 2) / 5 + d - 1 in
  let doe := yoe * 365 + yoe / 4 - yoe / 100 + doy in
  era * 146097 + doe - 719468.

(** [pd.Timestamp('Y-M-D')]: midnight of that day, in microseconds. *)
Definition Timestamp (y m d : Z) : Z := days_from_civil y m d * us_per_day.

(** [.dt.date], [.dt.hour] and [.dt.day_name()] of one value; [NaT] stays
    missing. *)
Definition dt_date (t : option Z) : option Z :=
  option_map (fun us => us / us_per_day) t.

Definition dt_hour (t : option Z) : option Z :=
  option_map (fun us => (us mod us_per_day) / us_per_hour) t.

Definition day_names : list string :=
  ["Monday"; "Tuesday"; "Wednesday"; "Thursday"; "Friday"; "Saturday"; "Sunday"].

Definition dt_day_name (t : option Z) : option string :=
  option_map
    (fun us => nth (Z.to_nat ((us / us_per_day + 3) mod 7)) day_names "") t.

End Time.

(* ------------------------------------------------------------------ *)
(** ** binary64 helpers *)

Module F64.

(** Conversion of an [int64] to [float64], rounding to nearest. *)
Definition of_Z (z : Z) : float :=
  match z with
  | Z0 => 0%float
  | Zpos _ => of_uint63 (Uint63.of_Z z)
  | Zneg p => (- of_uint63 (Uint63.of_Z (Zpos p)))%float
  end.

(** [x > y], [x >= y], [x <= y] on floats: false when either side is NaN. *)
Definition gt (x y : float) : bool := (y <? x)%float.
Definition le (x y : float) : bool := (x <=? y)%float.

End F64.

(* ------------------------------------------------------------------ *)
(** ** Series and masks *)

Module Series.

Section Ops.
Context {A B C : Type}.

(** [df[col]]: one column of a frame. *)
Definition col (f : A -> B) (df : list A) : list B := map f df.

(** Element-wise binary operation of two aligned series. *)
Fixpoint zip_with (f : A -> B -> C) (xs : list A) (ys : list B) : list C :=
  match xs, ys with
  | x :: xs', y :: ys' => f x y :: zip_with f xs' ys'
  | _, _ => []
  end.

(** [df[mask]]: the rows whose mask entry is [True], in order. *)
Fixpoint getitem_mask (df : list A) (mask : list bool) : list A :=
  match df, mask with
  | r :: df', b :: mask' =>
      if b then r :: getitem_mask df' mask' else getitem_mask df' mask'
  | _, _ => []
  end.

End Ops.

(** [m1 & m2] on boolean series. *)
Definition and_ (m1 m2 : list bool) : list bool := zip_with andb m1 m2.

(** Comparisons with [NaT]/[NaN]/missing are [False]. *)
Definition cmp_opt (c : Z -> Z -> bool) (x y : option Z) : bool :=
  match x, y with
  | Some a, Some b => c a b
  | _, _ => false
  end.

Definition gt_scalar_f (s : list float) (k : float) : list bool :=
  map (fun v => F64.gt v k) s.
Definition le_scalar_f (s : list float) (k : float) : list bool :=
  map (fun v => F64.le v k) s.
Definition ge_scalar (s : list (option Z)) (k : Z) : list bool :=
  map (fun v => cmp_opt Z.geb v (Some k)) s.
Definition le_scalar (s : list (option Z)) (k : Z) : list bool :=
  map (fun v => cmp_opt Z.leb v (Some k)) s.
Definition lt_scalar (s : list (option Z)) (k : Z) : list bool :=
  map (fun v => cmp_opt Z.ltb v (Some k)) s.
Definition gt_series (s1 s2 : list (option Z)) : list bool :=
  zip_with (cmp_opt Z.gtb) s1 s2.

(** [s.isin(values)] for a series of strings. *)
Definition isin (s : list string) (values : list string) : list bool :=
  map (fun v => existsb (String.eqb v) values) s.

End Series.

Import Series.

(* ------------------------------------------------------------------ *)
(** ** Tables *)

(** A row of the raw monthly extract (the columns the program reads). *)
Record RawTrip := mkRawTrip {
  tpep_pickup_datetime : option Z;
  tpep_dropoff_datetime : option Z;
  PULocationID : option Z;
  DOLocationID : option Z;
  trip_distance : float;
  fare_amount : float;
  total_amount : float;
  payment_type : option Z
}.

(** A row of the cleaned snapshot: the raw columns and the four derived
    ones. *)
Record Trip := mkTrip {
  raw :> RawTrip;
  trip_duration_minutes : float;
  trip_speed_mph : float;
  pickup_hour : option Z;
  pickup_day_of_week : option string
}.

(** A row of [taxi_zone_lookup.csv]. [read_csv] turns the cells "N/A" of the
    file into missing values. *)
Record ZoneRow := mkZone {
  LocationID : Z;
  Borough : option string;
  Zone : option string;
  service_zone : option string
}.

(* ------------------------------------------------------------------ *)
(** ** [load_data]: cleaning and derived columns *)

(** [df.dropna(subset=[pickup, dropoff, PULocationID, DOLocationID,
    fare_amount])]. *)
Definition isna_opt {A} (x : option A) : bool :=
  match x with None => true | Some _ => false end.

Definition has_na_required (r : RawTrip) : bool :=
  isna_opt (tpep_pickup_datetime r) || isna_opt (tpep_dropoff_datetime r)
  || isna_opt (PULocationID r) || isna_opt (DOLocationID r)
  || is_nan (fare_amount r).

Definition dropna_required (df : list RawTrip) : list RawTrip :=
  getitem_mask df (map (fun r => negb (has_na_required r)) df).

Definition window_start : Z := Time.Timestamp 2024 1 1.
Definition window_end : Z := Time.Timestamp 2024 2 1.

(** Lines 37-44: the exclusionary filters, one frame after the other. *)
Definition clean_rows (df : list RawTrip) : list RawTrip :=
  let df := dropna_required df in
  let df := getitem_mask df (gt_scalar_f (col trip_distance df) 0%float) in
  let df := getitem_mask df (gt_scalar_f (col fare_amount df) 0%float) in
  let df := getitem_mask df (le_scalar_f (col fare_amount df) 500%float) in
  let df := getitem_mask df (gt_series (col tpep_dropoff_datetime df)
                                       (col tpep_pickup_datetime df)) in
  let df := getitem_mask df
              (and_ (ge_scalar (col tpep_pickup_datetime df) window_start)
                    (lt_scalar (col tpep_pickup_datetime df) window_end)) in
  df.

(** [(dropoff - pickup).dt.total_seconds()]: the difference in microseconds
    as a float, divided by the periods per second; NaN for [NaT]. *)
Definition total_seconds (dropoff pickup : option Z) : float :=
  match dropoff, pickup with
  | Some d, Some p => (F64.of_Z (d - p) / F64.of_Z Time.us_per_second)%float
  | _, _ => nan
  end.

Definition duration_minutes (r : RawTrip) : float :=
  (total_seconds (tpep_dropoff_datetime r) (tpep_pickup_datetime r) / 60)%float.

(** [s.where(cond, other=0)] on one value. *)
Definition where_ (v : float) (cond : bool) (other : float) : float :=
  if cond then v else other.

Definition speed_mph (r : RawTrip) (duration : float) : float :=
  where_ (trip_distance r / (duration / 60))%float (F64.gt duration 0%float) 0%float.

(** Lines 47-55: the derived columns of one row. *)
Definition derive (r : RawTrip) : Trip :=
  let duration := duration_minutes r in
  {| raw := r;
     trip_duration_minutes := duration;
     trip_speed_mph := speed_mph r duration;
     pickup_hour := Time.dt_hour (tpep_pickup_datetime r);
     pickup_day_of_week := Time.dt_day_name (tpep_pickup_datetime r) |}.

Definition clean (df : list RawTrip) : list Trip := map derive (clean_rows df).

(** The local files [load_data] creates and reads, each held as the table it
    parses to, and the two remote sources. *)
Record Files := mkFiles {
  zone_csv : option (list ZoneRow);
  raw_parquet : option (list RawTrip);
  cleaned_parquet : option (list Trip)
}.

Record Remote := mkRemote {
  remote_zones : list ZoneRow;
  remote_trips : list RawTrip
}.

Definition no_files : Files :=
  {| zone_csv := None; raw_parquet := None; cleaned_parquet := None |}.

(** [load_data()], with the files threaded through. Downloads are taken to
    succeed. *)
Definition load_data (net : Remote) (fs : Files)
  : (list Trip * list ZoneRow) * Files :=
  let '(zones, fs) :=
    match zone_csv fs with
    | Some z => (z, fs)
    | None =>
        (remote_zones net,
         {| zone_csv := Some (remote_zones net);
            raw_parquet := raw_parquet fs;
            cleaned_parquet := cleaned_parquet fs |})
    end in
  let '(df, fs) :=
    match cleaned_parquet fs with
    | Some snapshot => (snapshot, fs)
    | None =>
        let df := clean (remote_trips net) in
        (df,
         {| zone_csv := zone_csv fs;
            raw_parquet := Some (remote_trips net);
            cleaned_parquet := Some df |})
    end in
  ((df, zones), fs).

(* ------------------------------------------------------------------ *)
(** ** The payment-label column *)

Definition payment_labels : list (Z * string) :=
  [(1, "Credit Card"); (2, "Cash"); (3, "No Charge"); (4, "Dispute");
   (5, "Unknown")].

Fixpoint dict_get {V : Type} (d : list (Z * V)) (k : Z) : option V :=
  match d with
  | [] => None
  | (k', v) :: d' => if k =? k' then Some v else dict_get d' k
  end.

(** [s.map(d)] on one value: a missing value, or one that is no key of the
    dict, gives a missing value. *)
Definition map_dict {V : Type} (d : list (Z * V)) (v : option Z) : option V :=
  match v with
  | Some k => dict_get d k
  | None => None
  end.

Definition fillna {V : Type} (v : option V) (value : V) : V :=
  match v with
  | Some x => x
  | None => value
  end.

(** A row of the frame the dashboard works on: the snapshot's columns and
    [payment_label]. *)
Record Row := mkRow {
  trip :> Trip;
  payment_label : string
}.

Definition label_of (code : option Z) : string :=
  fillna (map_dict payment_labels code) "Other".

(** Line 67: [df['payment_label'] = df['payment_type'].map(...).fillna(...)]. *)
Definition add_payment_label (df : list Trip) : list Row :=
  map (fun t => {| trip := t; payment_label := label_of (payment_type t) |}) df.

(* ------------------------------------------------------------------ *)
(** ** The sidebar filter *)

(** Lines 106-109. [date_range] is what [st.sidebar.date_input] returns when
    it is created with a pair as its value: a tuple of the dates picked so far
    (none, the start alone, or both), so the [isinstance] test holds.
    [date_range[0]] on the empty tuple raises [IndexError]: [None]. *)
Definition date_bounds (date_range : list Z) : option (Z * Z) :=
  match date_range with
  | [start_date; end_date] => Some (start_date, end_date)
  | d :: _ => Some (d, d)
  | [] => None
  end.

(** Lines 111-117. *)
Definition filtered_df (df : list Row) (start_date end_date : Z)
    (hour_range : Z * Z) (selected_payments : list string) : list Row :=
  let pickup_date :=
    map Time.dt_date (col (fun r : Row => tpep_pickup_datetime r) df) in
  getitem_mask df
    (and_ (and_ (and_ (and_ (ge_scalar pickup_date start_date)
                            (le_scalar pickup_date end_date))
                      (ge_scalar (col (fun r : Row => pickup_hour r) df)
                                 (fst hour_range)))
                (le_scalar (col (fun r : Row => pickup_hour r) df)
                           (snd hour_range)))
          (isin (col payment_label df) selected_payments)).

(** Lines 106-117 together. *)
Definition apply_filters (df : list Row) (date_range : list Z)
    (hour_range : Z * Z) (selected_payments : list string)
  : option (list Row) :=
  match date_bounds date_range with
  | Some (start_date, end_date) =>
      Some (filtered_df df start_date end_date hour_range selected_payments)
  | None => None
  end.

(* ------------------------------------------------------------------ *)
(** ** Number formatting of f-strings *)

Module PyFormat.

Definition digits (n : Z) : list ascii :=
  list_ascii_of_string (NilZero.string_of_uint (N.to_uint (Z.to_N n))).

(** Thousands separators, on the reversed digits of the integer part. *)
Fixpoint group3 (rev_digits : list ascii) : list ascii :=
  match rev_digits with
  | a :: b :: c :: (_ :: _) as rest => a :: b :: c :: ","%char :: group3 rest
  | l => l
  end.

Definition with_commas (int_digits : list ascii) : list ascii :=
  rev (group3 (rev int_digits)).

(** [f'{n:,}'] of a non-negative integer. *)
Definition int_comma (n : Z) : string :=
  string_of_list_ascii (with_commas (digits n)).

(** [n / d] rounded to the nearest integer, ties to even ([d > 0]). *)
Definition round_half_even (n d : Z) : Z :=
  let q := n / d in
  match 2 * (n mod d) ?= d with
  | Lt => q
  | Gt => q + 1
  | Eq => if Z.even q then q else q + 1
  end.

(** [m * 2^e * 10^prec], correctly rounded to an integer. *)
Definition scaled (m : positive) (e : Z) (prec : nat) : Z :=
  let n := Zpos m * 10 ^ Z.of_nat prec in
  if 0 <=? e then n * 2 ^ e else round_half_even n (2 ^ (- e)).

Definition sign (s : bool) : string := if s then "-" else "".

(** The decimal digits of [n] with the point [prec] places from the right. *)
Definition place (grouping : bool) (prec : nat) (n : Z) : string :=
  let ds := digits n in
  let ds := (repeat "0"%char (S prec - List.length ds) ++ ds)%list in
  let int_part := firstn (List.length ds - prec) ds in
  let frac_part := skipn (List.length ds - prec) ds in
  let int_part := if grouping then with_commas int_part else int_part in
  string_of_list_ascii
    (match prec with
     | O => int_part
     | S _ => (int_part ++ "."%char :: frac_part)%list
     end).

(** [f'{x:.<prec>f}'], and [f'{x:,.<prec>f}'] when [grouping]. *)
Definition fixed (grouping : bool) (prec : nat) (x : float) : string :=
  match Prim2SF x with
  | S754_nan => "nan"
  | S754_infinity s => sign s ++ "inf"
  | S754_zero s => sign s ++ place grouping prec 0
  | S754_finite s m e => sign s ++ place grouping prec (scaled m e prec)
  end.

End PyFormat.

(* ------------------------------------------------------------------ *)
(** ** Key metrics *)

(** Reductions skip missing values ([skipna=True]): a NaN is counted out and
    added as 0. [np_sum] adds the values from the first one on, from left to
    right (numpy adds long columns block-wise, which can round differently);
    the sum of no value is 0 and the mean of no value is NaN. *)
Definition notna (s : list float) : list float :=
  filter (fun v => negb (is_nan v)) s.

Definition fill_zero (s : list float) : list float :=
  map (fun v => if is_nan v then 0%float else v) s.

Definition np_sum (values : list float) : float :=
  match values with
  | [] => 0%float
  | x :: xs => fold_left PrimFloat.add xs x
  end.

Definition series_sum (s : list float) : float := np_sum (fill_zero s).

Definition series_mean (s : list float) : float :=
  let count := Z.of_nat (List.length (notna s)) in
  if 0 <? count then (series_sum s / F64.of_Z count)%float else nan.

(** The five [metric] cards, each with the text it shows. *)
Record Metrics := mkMetrics {
  total_trips : string;
  avg_fare : string;
  total_revenue : string;
  avg_distance : string;
  avg_duration : string
}.

Definition key_metrics (fdf : list Row) : Metrics :=
  {| total_trips := PyFormat.int_comma (Z.of_nat (List.length fdf));
     avg_fare :=
       "$" ++ PyFormat.fixed false 2
                (series_mean (col (fun r : Row => fare_amount r) fdf));
     total_revenue :=
       "$" ++ PyFormat.fixed true 0
                (series_sum (col (fun r : Row => total_amount r) fdf));
     avg_distance :=
       PyFormat.fixed false 2
         (series_mean (col (fun r : Row => trip_distance r) fdf)) ++ " mi";
     avg_duration :=
       PyFormat.fixed false 1
         (series_mean (col (fun r : Row => trip_duration_minutes r) fdf))
       ++ " min" |}.

(* ------------------------------------------------------------------ *)
(** ** Top pickup zones *)

(** [left.merge(right, left_on='PULocationID', right_on='LocationID')]: the
    default inner join, one row per matching pair. *)
Definition key_matches (l : Row) (z : ZoneRow) : bool :=
  cmp_opt Z.eqb (PULocationID l) (Some (LocationID z)).

Definition merge (left : list Row) (right : list ZoneRow)
  : list (Row * ZoneRow) :=
  flat_map (fun l => map (pair l) (filter (key_matches l) right)) left.

(** [.groupby(key).size().reset_index(name='total_trips')]: one row per
    distinct key, keys ascending, rows with a missing key dropped. *)
Fixpoint bump (k : string) (acc : list (string * Z)) : list (string * Z) :=
  match acc with
  | [] => [(k, 1)]
  | (k', n) :: rest =>
      match String.compare k k' with
      | Eq => (k', n + 1) :: rest
      | Lt => (k, 1) :: acc
      | Gt => (k', n) :: bump k rest
      end
  end.

Definition groupby_size (keys : list (option string)) : list (string * Z) :=
  fold_left (fun acc k => match k with Some k => bump k acc | None => acc end)
            keys [].

Definition zone_counts (fdf : list Row) (zones : list ZoneRow)
  : list (string * Z) :=
  groupby_size (map (fun p => Zone (snd p)) (merge fdf zones)).

(** [.sort_values('total_trips', ascending=False)] sorts on the one key with
    the default kind. What pandas promises of it: the result is some
    arrangement of the rows with the counts descending. The arrangement
    numpy computes is [sort_values] below. *)
Definition count_ge (a b : string * Z) : Prop := snd b <= snd a.

Definition sort_values_desc (rows out : list (string * Z)) : Prop :=
  Permutation rows out /\ StronglySorted count_ge out.

Definition head {A : Type} (n : nat) (l : list A) : list A := firstn n l.

Definition top_n_zones (n : nat) (fdf : list Row) (zones : list ZoneRow)
    (out : list (string * Z)) : Prop :=
  exists sorted,
    sort_values_desc (zone_counts fdf zones) sorted /\ out = head n sorted.

(** Lines 139-146. *)
Definition top_zones := top_n_zones 10.

(** Two sorts that [sort_values_desc] admits: insertion sort that keeps rows
    of equal count in the order they come in ([keep_ties]), which is what
    [sort_values] below comes to on a short frame, and the one that reverses
    them. *)
Fixpoint insert_desc (keep_ties : bool) (x : string * Z)
    (l : list (string * Z)) : list (string * Z) :=
  match l with
  | [] => [x]
  | y :: l' =>
      if (if keep_ties then snd y <=? snd x else snd y <? snd x)
      then x :: l
      else y :: insert_desc keep_ties x l'
  end.

Definition sort_desc (keep_ties : bool) (l : list (string * Z))
  : list (string * Z) :=
  fold_right (insert_desc keep_ties) [] l.

(** numpy's [argsort] of kind 'quicksort', the scalar routine [aquicksort_]
    of npysort/quicksort.cpp (a build of numpy that hands the keys to a
    vectorised sort does not run it). It arranges the positions of an array
    by the values [v] found there; below an element stands for its position,
    and a list for the part of the array from [pl] to [pr]. [aheapsort] is
    the routine of that name, to which a part is handed when the depth
    allowed runs out; nothing but that it sorts is assumed of it. *)
Section ArgSort.
Context {A : Type} (v : A -> Z) (aheapsort : list A -> list A).

Definition SMALL_QUICKSORT : nat := 16.

(** The last loop of the routine, an insertion sort: each element in turn
    moves down past the elements before it that are greater. The sorted
    part is kept last element first. *)
Fixpoint shift (x : A) (sorted : list A) : list A :=
  match sorted with
  | y :: rest => if v x <? v y then y :: shift x rest else x :: sorted
  | [] => [x]
  end.

Definition insertion_sort (a : list A) : list A :=
  rev (fold_left (fun sorted x => shift x sorted) a []).

(** [INTP_SWAP] of the positions [pi] and [pj]. *)
Definition upd (i : nat) (x : A) (a : list A) : list A :=
  (firstn i a ++ x :: skipn (S i) a)%list.

Definition swap (i j : nat) (a : list A) : list A :=
  match nth_error a i, nth_error a j with
  | Some x, Some y => upd j x (upd i y a)
  | _, _ => a
  end.

(** [INTP_SWAP] under the test [less(v[*pi], v[*pj])]. *)
Definition swap_if_less (i j : nat) (a : list A) : list A :=
  match nth_error a i, nth_error a j with
  | Some x, Some y => if v x <? v y then swap i j a else a
  | _, _ => a
  end.

(** The number of elements at the front of [l] that pass [p]. *)
Fixpoint run_length (p : A -> bool) (l : list A) : nat :=
  match l with
  | x :: l' => if p x then S (run_length p l') else O
  | [] => O
  end.

(** [do { ++pi; } while (less(v[*pi], vp))] and
    [do { --pj; } while (less(vp, v[*pj]))]. *)
Definition scan_up (vp : Z) (a : list A) (pi : nat) : nat :=
  Nat.add (S pi) (run_length (fun x => v x <? vp) (skipn (S pi) a)).

Definition scan_down (vp : Z) (a : list A) (pj : nat) : nat :=
  Nat.sub (Nat.pred pj)
          (run_length (fun x => vp <? v x) (rev (firstn pj a))).

(** The [for (;;)] loop of the partition; [pj - pi] shrinks in each round. *)
Fixpoint sweep (rounds : nat) (vp : Z) (a : list A) (pi pj : nat)
  : list A * nat :=
  match rounds with
  | O => (a, pi)
  | S rounds =>
      let pi := scan_up vp a pi in
      let pj := scan_down vp a pj in
      if (pj <=? pi)%nat then (a, pi)
      else sweep rounds vp (swap pi pj a) pi pj
  end.

(** The partition of a part of more than [SMALL_QUICKSORT + 1] elements:
    the median of the first, middle and last element is the pivot, parked at
    [pr - 1] during the sweep and put at [pi], which is returned. *)
Definition partition (a : list A) : list A * nat :=
  let pr := (List.length a - 1)%nat in
  let pm := Nat.div2 pr in
  let a := swap_if_less pm 0 a in
  let a := swap_if_less pr pm a in
  let a := swap_if_less pm 0 a in
  match nth_error a pm with
  | Some p =>
      let a := swap pm (pr - 1) a in
      let (a, pi) := sweep (List.length a) (v p) a 0 (pr - 1) in
      (swap pi (pr - 1) a, pi)
  | None => (a, O)
  end.

(** The outer loop. A part of at most [SMALL_QUICKSORT + 1] elements is
    sorted by insertion. A longer one is partitioned: the pivot stays at
    [pi], the larger side is pushed on the stack with the depth left, and
    the loop goes on with the smaller. A part taken from the stack
    ([popped]) with no depth left is handed to [aheapsort]. The parts shrink,
    so [fuel] above the length of the array does not run out. *)
Fixpoint aquicksort_from (fuel : nat) (popped : bool) (cdepth : Z)
    (a : list A) : list A :=
  match fuel with
  | O => a
  | S fuel =>
      if popped && (cdepth <? 0) then aheapsort a
      else if (SMALL_QUICKSORT <? List.length a - 1)%nat then
        let (a', pi) := partition a in
        let left_smaller := (pi <? List.length a - 1 - pi)%nat in
        (aquicksort_from fuel (negb left_smaller) (cdepth - 1) (firstn pi a')
         ++ firstn 1 (skipn pi a')
         ++ aquicksort_from fuel left_smaller (cdepth - 1)
                            (skipn (S pi) a'))%list
      else insertion_sort a
  end.

(** [cdepth = npy_get_msb(num) * 2]. *)
Definition aquicksort (a : list A) : list A :=
  aquicksort_from (S (List.length a)) true
                  (2 * Z.log2 (Z.of_nat (List.length a))) a.

End ArgSort.

(** Line 144 as pandas runs it ([nargsort] with [ascending=False], no
    count being missing): the column is reversed, argsorted, and the
    positions found are reversed. *)
Definition sort_values (aheapsort : list (string * Z) -> list (string * Z))
    (rows : list (string * Z)) : list (string * Z) :=
  rev (aquicksort snd aheapsort (rev rows)).

(** Lines 139-146 with [head(n)]. *)
Definition top_n_rows (aheapsort : list (string * Z) -> list (string * Z))
    (n : nat) (fdf : list Row) (zones : list ZoneRow) : list (string * Z) :=
  head n (sort_values aheapsort (zone_counts fdf zones)).

Definition top_zones_rows
    (aheapsort : list (string * Z) -> list (string * Z)) :=
  top_n_rows aheapsort 10.

(* ------------------------------------------------------------------ *)
(** ** The sidebar's defaults *)

(** The least or greatest of the entries of a column that are present;
    missing when none is. *)
Definition reduce_opt (f : Z -> Z -> Z) (s : list (option Z)) : option Z :=
  fold_left (fun acc v => match acc, v with
                          | Some a, Some b => Some (f a b)
                          | None, _ => v
                          | _, None => acc
                          end) s None.

(** [s.min()] and [s.max()] of a column of date objects, which is what
    [.dt.date] gives. pandas puts an infinity in the place of each missing
    entry before the column is reduced, and a date does not compare with a
    float: a column holding both a date and a missing entry raises
    ([None]). Otherwise the result is the least (greatest) date, and is
    missing when the column has no date. *)
Definition reduce_dates (f : Z -> Z -> Z) (s : list (option Z))
  : option (option Z) :=
  if existsb isna_opt s && existsb (fun v => negb (isna_opt v)) s
  then None
  else Some (reduce_opt f s).

Definition pickup_dates (df : list Row) : list (option Z) :=
  map Time.dt_date (col (fun r : Row => tpep_pickup_datetime r) df).

(** Lines 80-81. *)
Definition min_date (df : list Row) : option (option Z) :=
  reduce_dates Z.min (pickup_dates df).
Definition max_date (df : list Row) : option (option Z) :=
  reduce_dates Z.max (pickup_dates df).

(** [s.unique().tolist()]: the distinct values, in the order they first
    occur. *)
Fixpoint unique (s : list string) : list string :=
  match s with
  | [] => []
  | x :: xs => x :: filter (fun y => negb (String.eqb x y)) (unique xs)
  end.

(** Line 98. *)
Definition payment_options (df : list Row) : list string :=
  unique (col payment_label df).

(** The view of the first run: the date picker holds [(min_date, max_date)],
    the hour slider [(0, 23)] and every payment option is selected. When
    line 80 raises, or the frame has no date and the picker no bounds to
    show, there is no view: [None]. *)
Definition default_view (df : list Row) : option (list Row) :=
  match min_date df, max_date df with
  | Some (Some lo), Some (Some hi) =>
      apply_filters df [lo; hi] (0, 23) (payment_options df)
  | _, _ => None
  end.

(* ------------------------------------------------------------------ *)
(** ** The other aggregates of the view *)

(** Grouping by a key with any order [cmp]: one group per key that occurs,
    keys ascending, each with the values of its rows in the order of the
    frame; rows with a missing key are dropped. *)
Section GroupBy.
Context {K V : Type} (cmp : K -> K -> comparison).

Fixpoint add_to_group (k : K) (v : V) (acc : list (K * list V))
  : list (K * list V) :=
  match acc with
  | [] => [(k, [v])]
  | (k', vs) :: rest =>
      match cmp k k' with
      | Eq => (k', (vs ++ [v])%list) :: rest
      | Lt => (k, [v]) :: acc
      | Gt => (k', vs) :: add_to_group k v rest
      end
  end.

Definition groups (rows : list (option K * V)) : list (K * list V) :=
  fold_left (fun acc kv => match fst kv with
                           | Some k => add_to_group k (snd kv) acc
                           | None => acc
                           end) rows [].

End GroupBy.

(** Lines 167-172: [groupby('pickup_hour')['fare_amount'].mean()] with the
    index reset. [mean] is the reduction pandas applies to the fares of one
    group. *)
Definition fare_by_hour (mean : list float -> float) (fdf : list Row)
  : list (Z * float) :=
  map (fun g => (fst g, mean (snd g)))
      (groups Z.compare
         (map (fun r : Row => (pickup_hour r, fare_amount r)) fdf)).

(** Lines 195-199: [groupby(['pickup_day_of_week', 'pickup_hour']).size()]
    with the index reset: the keys are pairs, ordered by day name and then
    by hour; a row with either key missing is dropped. *)
Definition compare_day_hour (a b : string * Z) : comparison :=
  match String.compare (fst a) (fst b) with
  | Eq => Z.compare (snd a) (snd b)
  | c => c
  end.

Definition day_hour_key (r : Row) : option (string * Z) :=
  match pickup_day_of_week r, pickup_hour r with
  | Some d, Some h => Some (d, h)
  | _, _ => None
  end.

Definition heatmap_data (fdf : list Row) : list ((string * Z) * Z) :=
  map (fun g => (fst g, Z.of_nat (List.length (snd g))))
      (groups compare_day_hour (map (fun r : Row => (day_hour_key r, tt)) fdf)).

(** Lines 228-232: [groupby('payment_label').size()] with the index reset. *)
Definition payment_counts (fdf : list Row) : list (string * Z) :=
  groupby_size (map (fun r : Row => Some (payment_label r)) fdf).

(** Line 251: the frame the histogram is drawn from. *)
Definition histogram_rows (fdf : list Row) : list Row :=
  getitem_mask fdf
    (le_scalar_f (col (fun r : Row => trip_distance r) fdf) 20%float).

(* ------------------------------------------------------------------ *)
(** ** Specification predicates and sample data *)

(** The six row tests of the cleaning pass. *)
Definition keeps_present (r : RawTrip) : bool := negb (has_na_required r).
Definition keeps_distance (r : RawTrip) : bool := F64.gt (trip_distance r) 0%float.
Definition keeps_fare_pos (r : RawTrip) : bool := F64.gt (fare_amount r) 0%float.
Definition keeps_fare_max (r : RawTrip) : bool := F64.le (fare_amount r) 500%float.
Definition keeps_order (r : RawTrip) : bool :=
  cmp_opt Z.gtb (tpep_dropoff_datetime r) (tpep_pickup_datetime r).
Definition keeps_window (r : RawTrip) : bool :=
  cmp_opt Z.geb (tpep_pickup_datetime r) (Some window_start)
  && cmp_opt Z.ltb (tpep_pickup_datetime r) (Some window_end).

(** The cleaning invariants of one snapshot row. *)
Definition required_present (t : Trip) : Prop :=
  tpep_pickup_datetime t <> None /\ tpep_dropoff_datetime t <> None
  /\ PULocationID t <> None /\ DOLocationID t <> None
  /\ is_nan (fare_amount t) = false.

Definition cleaned_ok (t : Trip) : Prop :=
  required_present t
  /\ (0 <? trip_distance t)%float = true
  /\ (0 <? fare_amount t)%float = true
  /\ (fare_amount t <=? 500)%float = true
  /\ (exists p d,
        tpep_pickup_datetime t = Some p /\ tpep_dropoff_datetime t = Some d
        /\ p < d
        /\ Time.Timestamp 2024 1 1 <= p < Time.Timestamp 2024 2 1).

(** A time of day in January 2024, in microseconds. *)
Definition jan (day hour minute : Z) : Z :=
  Time.Timestamp 2024 1 day + hour * Time.us_per_hour
  + minute * 60 * Time.us_per_second.

(** A raw extract: a sound row, one row against each filter, and a sound row
    at the last minute of the month. *)
Definition sample_raw : list RawTrip :=
  [ mkRawTrip (Some (jan 5 13 0)) (Some (jan 5 13 10)) (Some 1) (Some 2)
              2.5 12.5 15.5 (Some 1);
    mkRawTrip None (Some (jan 5 13 10)) (Some 1) (Some 2) 2.5 12.5 15.5 (Some 1);
    mkRawTrip (Some (jan 5 13 0)) (Some (jan 5 13 10)) (Some 1) (Some 2)
              2.5 nan 15.5 (Some 1);
    mkRawTrip (Some (jan 5 13 0)) (Some (jan 5 13 10)) (Some 1) (Some 2)
              0 12.5 15.5 (Some 2);
    mkRawTrip (Some (jan 5 13 0)) (Some (jan 5 13 10)) (Some 1) (Some 2)
              2.5 (-3) 15.5 (Some 2);
    mkRawTrip (Some (jan 5 13 0)) (Some (jan 5 13 10)) (Some 1) (Some 2)
              2.5 500.5 515.5 (Some 1);
    mkRawTrip (Some (jan 5 13 0)) (Some (jan 5 13 0)) (Some 1) (Some 2)
              2.5 12.5 15.5 (Some 1);
    mkRawTrip (Some (jan 32 0 0)) (Some (jan 32 0 10)) (Some 1) (Some 2)
              2.5 12.5 15.5 (Some 1);
    mkRawTrip (Some (jan 31 23 59)) (Some (jan 32 0 10)) (Some 7) (Some 2)
              1.5 500 501 (Some 99) ].

Definition hd_raw (df : list RawTrip) : RawTrip :=
  hd (mkRawTrip None None None None nan nan nan None) df.

Definition sample_net : Remote :=
  {| remote_zones := []; remote_trips := sample_raw |}.

(** The three tests of the filter as the specification words them. *)
Definition in_date_range (start_date end_date : Z) (r : Row) : Prop :=
  exists p, tpep_pickup_datetime r = Some p
            /\ start_date <= p / Time.us_per_day <= end_date.

Definition in_hour_range (hour_range : Z * Z) (r : Row) : Prop :=
  exists h, pickup_hour r = Some h
            /\ fst hour_range <= h <= snd hour_range.

Definition label_selected (selected_payments : list string) (r : Row) : Prop :=
  In (payment_label r) selected_payments.

(** The row test that the five masks of [filtered_df] add up to. *)
Definition passes (start_date end_date : Z) (hour_range : Z * Z)
    (selected_payments : list string) (r : Row) : bool :=
  cmp_opt Z.geb (Time.dt_date (tpep_pickup_datetime r)) (Some start_date)
  && cmp_opt Z.leb (Time.dt_date (tpep_pickup_datetime r)) (Some end_date)
  && cmp_opt Z.geb (pickup_hour r) (Some (fst hour_range))
  && cmp_opt Z.leb (pickup_hour r) (Some (snd hour_range))
  && existsb (String.eqb (payment_label r)) selected_payments.

(** A frame with rows on both sides of each test of the filter. *)
Definition sample_row (pickup : Z) (label : string) : Row :=
  {| trip := derive (mkRawTrip (Some pickup) (Some (pickup + 60000000))
                               (Some 1) (Some 2) 1 5 6 None);
     payment_label := label |}.

Definition sample_rows : list Row :=
  [ sample_row (jan 3 9 30) "Cash"; sample_row (jan 4 9 30) "Cash";
    sample_row (jan 4 17 0) "Cash"; sample_row (jan 4 10 0) "Credit Card";
    sample_row (jan 5 9 0) "Other"; sample_row (jan 7 10 0) "Cash" ].

(** A row whose pickup time is missing. *)
Definition undated_row : Row :=
  {| trip := derive (mkRawTrip None (Some (jan 3 9 0)) (Some 1) (Some 2)
                               1 5 6 None);
     payment_label := "Cash" |}.

Definition day (d : Z) : Z := Time.days_from_civil 2024 1 d.

(** The mapping as the specification lists it. *)
Definition spec_label (code : option Z) : string :=
  match code with
  | Some 1 => "Credit Card"
  | Some 2 => "Cash"
  | Some 3 => "No Charge"
  | Some 4 => "Dispute"
  | Some 5 => "Unknown"
  | _ => "Other"
  end.

(** How often the key [k] occurs in a column, and the total an accumulator
    holds for it. *)
Definition is_key (k : string) (o : option string) : bool :=
  match o with
  | Some k' => String.eqb k k'
  | None => false
  end.

Definition count_key (k : string) (keys : list (option string)) : Z :=
  Z.of_nat (List.length (filter (is_key k) keys)).

Fixpoint total_of (k : string) (acc : list (string * Z)) : Z :=
  match acc with
  | [] => 0
  | (k', n) :: rest => (if String.eqb k k' then n else 0) + total_of k rest
  end.

Definition key_lt (a b : string * Z) : Prop :=
  String.compare (fst a) (fst b) = Lt.

(** The example of the specification: zones A, B and C. *)
Definition abc_zones : list ZoneRow :=
  [ mkZone 1 (Some "Manhattan") (Some "A") (Some "Yellow Zone");
    mkZone 2 (Some "Queens") (Some "B") (Some "Boro Zone");
    mkZone 3 (Some "Bronx") (Some "C") (Some "Boro Zone") ].

Definition trip_from (pu : Z) : Row :=
  {| trip := derive (mkRawTrip (Some (jan 4 9 0)) (Some (jan 4 9 20))
                               (Some pu) (Some 2) 1 5 6 (Some 1));
     payment_label := "Credit Card" |}.

(** Five trips from A, three from B, three from C. *)
Definition abc_trips : list Row :=
  map trip_from [3; 1; 2; 1; 3; 1; 2; 1; 3; 2; 1].

(** Eighteen zones, A to R, and one trip from each. *)
Definition zones18 : list ZoneRow :=
  map (fun p => mkZone (fst p) (Some "Manhattan") (Some (snd p))
                       (Some "Yellow Zone"))
      [ (1, "A"); (2, "B"); (3, "C"); (4, "D"); (5, "E"); (6, "F");
        (7, "G"); (8, "H"); (9, "I"); (10, "J"); (11, "K"); (12, "L");
        (13, "M"); (14, "N"); (15, "O"); (16, "P"); (17, "Q"); (18, "R") ].

Definition trips18 : list Row :=
  map trip_from [1; 2; 3; 4; 5; 6; 7; 8; 9; 10; 11; 12; 13; 14; 15; 16; 17; 18].

(** The order of an array sorted by [v], and its reverse. *)
Definition ascending {A : Type} (v : A -> Z) (x y : A) : Prop := v x <= v y.
Definition descending {A : Type} (v : A -> Z) (x y : A) : Prop := v y <= v x.

(** The ranking the specification words: by count descending, zones of
    equal count by name ascending. *)
Definition count_then_name (a b : string * Z) : Prop :=
  snd b < snd a \/ (snd b = snd a /\ key_lt a b).

(** The sum of the counts of a list of zone rows. *)
Definition sum_counts (rows : list (string * Z)) : Z :=
  fold_right (fun p s => snd p + s) 0 rows.

Definition notna_key (o : option string) : bool := negb (isna_opt o).

(** The zone name a trip is counted under: that of the first row of the
    lookup with its pickup location id; missing when there is no such row
    or the row has no name. *)
Definition joined_zone (zones : list ZoneRow) (t : Row) : option string :=
  match filter (key_matches t) zones with
  | z :: _ => Zone z
  | [] => None
  end.

Definition counted (zones : list ZoneRow) (t : Row) : bool :=
  notna_key (joined_zone zones t).

(** The row test of the whole cleaning pass. *)
Definition keeps_all (r : RawTrip) : bool :=
  keeps_present r && keeps_distance r && keeps_fare_pos r && keeps_fare_max r
  && keeps_order r && keeps_window r.

(** The frame the dashboard works on for the sample extract, and its first
    row. *)
Definition sample_df : list Row := add_payment_label (clean sample_raw).

Definition sample_first : Row :=
  {| trip := derive (hd_raw sample_raw); payment_label := "Credit Card" |}.

(** What a grouping should hold for a key: the values of the rows with
    that key, in the order of the frame; and what a list of groups holds for
    it. *)
Definition is_group_key {K : Type} (cmp : K -> K -> comparison) (k : K)
    (o : option K) : bool :=
  match o with
  | Some k' => match cmp k k' with Eq => true | _ => false end
  | None => false
  end.

Definition values_of {K V : Type} (cmp : K -> K -> comparison) (k : K)
    (rows : list (option K * V)) : list V :=
  map snd (filter (fun kv => is_group_key cmp k (fst kv)) rows).

Definition held_for {K V : Type} (cmp : K -> K -> comparison) (k : K)
    (acc : list (K * list V)) : list V :=
  flat_map (fun g => match cmp k (fst g) with Eq => snd g | _ => [] end) acc.

Definition group_lt {K V : Type} (cmp : K -> K -> comparison)
    (a b : K * list V) : Prop :=
  cmp (fst a) (fst b) = Lt.

(** The fares of the trips of one pickup hour, and the trips of one day of
    week and hour. *)
Definition fares_at (h : Z) (fdf : list Row) : list float :=
  map (fun r : Row => fare_amount r)
      (filter (fun r : Row => cmp_opt Z.eqb (pickup_hour r) (Some h)) fdf).

Definition trips_at (d : string) (h : Z) (fdf : list Row) : list Row :=
  filter (fun r : Row => is_group_key compare_day_hour (d, h) (day_hour_key r))
         fdf.

Definition sum_cells (cells : list ((string * Z) * Z)) : Z :=
  fold_right (fun c s => snd c + s) 0 cells.

(** Reading a count back from its text: the separators are dropped and the
    digits read as a decimal number ([int(text.replace(',', ''))]). *)
Definition not_comma (c : ascii) : bool := negb (Ascii.eqb c ","%char).

Definition read_count (text : string) : option N :=
  option_map N.of_uint
    (NilZero.uint_of_string
       (string_of_list_ascii (filter not_comma (list_ascii_of_string text)))).

(** The sign a binary64 value carries, when it is not NaN. *)
Definition has_sign (s : bool) (x : spec_float) : Prop :=
  match x with
  | S754_zero s' | S754_infinity s' | S754_finite s' _ _ => s' = s
  | S754_nan => False
  end.

(* ------------------------------------------------------------------ *)
(** ** Facts about binary64 values *)

Module F64Facts.

Lemma is_nan_spec (x : float) : is_nan x = true <-> Prim2SF x = S754_nan.
Proof.
  split; intro H.
  - unfold Prim2SF. now rewrite H.
  - unfold is_nan. rewrite eqb_spec, H. reflexivity.
Qed.

Lemma not_nan_spec (x : float) : is_nan x = false <-> Prim2SF x <> S754_nan.
Proof.
  rewrite <- is_nan_spec. destruct (is_nan x); split; congruence.
Qed.

Lemma zero_spec : Prim2SF 0%float = S754_zero false.
Proof. reflexivity. Qed.

(** Against zero, [<=] and [>] exclude each other, and one of them holds
    unless the value is NaN. *)
Lemma le_zero_not_gt (x : float) :
  (x <=? 0)%float = true -> (0 <? x)%float = false.
Proof.
  rewrite leb_spec, ltb_spec, zero_spec.
  destruct (Prim2SF x) as [s|s| |s m e]; try destruct s; cbn; congruence.
Qed.

Lemma not_le_zero_gt (x : float) :
  is_nan x = false -> (x <=? 0)%float = false -> (0 <? x)%float = true.
Proof.
  rewrite not_nan_spec, leb_spec, ltb_spec, zero_spec.
  destruct (Prim2SF x) as [s|s| |s m e]; try destruct s; cbn; congruence.
Qed.

(** Rounding a non-negative mantissa never gives NaN. *)
Lemma shr_1_nonneg (mrs : shr_record) :
  0 <= shr_m mrs -> 0 <= shr_m (shr_1 mrs).
Proof.
  destruct mrs as [m r s]; cbn.
  destruct m as [|p|p]; [now cbn | | lia].
  destruct p; cbn; lia.
Qed.

Lemma iter_pos_nonneg (n : positive) :
  forall mrs, 0 <= shr_m mrs -> 0 <= shr_m (iter_pos shr_1 n mrs).
Proof.
  induction n as [n IH|n IH|]; intros mrs H; cbn.
  - apply IH, IH, shr_1_nonneg, H.
  - apply IH, IH, H.
  - apply shr_1_nonneg, H.
Qed.

Lemma shr_fexp_nonneg (m e : Z) (l : location) :
  0 <= m -> 0 <= shr_m (fst (shr_fexp prec emax m e l)).
Proof.
  intro H. unfold shr_fexp, shr.
  assert (H0 : 0 <= shr_m (shr_record_of_loc m l))
    by (destruct l as [|[ | | ]]; exact H).
  destruct (_ - e); cbn [fst]; auto using iter_pos_nonneg.
Qed.

Lemma round_nearest_even_nonneg (m : Z) (l : location) :
  0 <= m -> 0 <= round_nearest_even m l.
Proof.
  intro H. destruct l as [|[ | | ]]; cbn; try lia.
  destruct (Z.even m); lia.
Qed.

Lemma binary_round_aux_not_nan (s : bool) (m e : Z) (l : location) :
  0 <= m -> binary_round_aux prec emax s m e l <> S754_nan.
Proof.
  intro H. unfold binary_round_aux.
  pose proof (shr_fexp_nonneg m e l H) as H1.
  destruct (shr_fexp prec emax m e l) as [mrs' e'] eqn:E1. cbn [fst] in H1.
  pose proof (shr_fexp_nonneg _ e' loc_Exact
                (round_nearest_even_nonneg _ (loc_of_shr_record mrs') H1)) as H2.
  destruct (shr_fexp prec emax _ e' loc_Exact) as [mrs'' e''] eqn:E2.
  cbn [fst] in H2.
  destruct (shr_m mrs'') as [|p|p]; [discriminate | | lia].
  destruct (e'' <=? _); discriminate.
Qed.

Lemma binary_normalize_not_nan (m e : Z) (s : bool) :
  binary_normalize prec emax m e s <> S754_nan.
Proof.
  destruct m as [|p|p]; cbn; [discriminate | |];
    unfold binary_round; destruct (shl_align _ _ _);
    apply binary_round_aux_not_nan; lia.
Qed.

Lemma div_finite_not_nan (x : spec_float) (s : bool) (m : positive) (e : Z) :
  x <> S754_nan -> SF64div x (S754_finite s m e) <> S754_nan.
Proof.
  intro Hx. destruct x as [sx|sx| |sx mx ex]; cbn; try discriminate.
  - congruence.
  - unfold SF64div, SFdiv.
    destruct (SFdiv_core_binary prec emax (Zpos mx) ex (Zpos m) e)
      as [[mz ez] lz] eqn:E.
    apply binary_round_aux_not_nan.
    unfold SFdiv_core_binary in E.
    set (s' := _ - _ - _) in E.
    set (m' := match s' with Zpos _ => _ | Z0 => _ | Zneg _ => _ end) in E.
    assert (Hm : 0 <= m').
    { subst m'. destruct s' as [|q|q]; try lia.
      apply Z.shiftl_nonneg. lia. }
    pose proof (Z_div_mod m' (Zpos m) eq_refl) as Hd.
    destruct (Z.div_eucl m' (Zpos m)) as [q r].
    injection E as <- _ _. nia.
Qed.

Lemma of_Z_not_nan (z : Z) : Prim2SF (F64.of_Z z) <> S754_nan.
Proof.
  destruct z as [|p|p]; cbn [F64.of_Z].
  - discriminate.
  - rewrite of_uint63_spec. apply binary_normalize_not_nan.
  - rewrite opp_spec, of_uint63_spec.
    pose proof (binary_normalize_not_nan
                  (Uint63.to_Z (Uint63.of_Z (Zpos p))) 0 false) as H.
    destruct (binary_normalize _ _ _ _ _); cbn; congruence.
Qed.

End F64Facts.

(* ------------------------------------------------------------------ *)
(** ** Facts about masks *)

Section MaskFacts.
Context {A : Type}.

Lemma zip_with_map {B C D : Type} (f : B -> C -> D) (g : A -> B) (h : A -> C)
    (l : list A) :
  zip_with f (map g l) (map h l) = map (fun x => f (g x) (h x)) l.
Proof. induction l as [|x l IH]; cbn; [reflexivity | now rewrite IH]. Qed.

Lemma and_map (p q : A -> bool) (l : list A) :
  and_ (map p l) (map q l) = map (fun x => p x && q x) l.
Proof. apply zip_with_map. Qed.

(** Indexing a frame by a mask computed row by row from the frame itself is
    [filter]. *)
Lemma getitem_mask_map (p : A -> bool) (df : list A) :
  getitem_mask df (map p df) = filter p df.
Proof.
  induction df as [|r df IH]; cbn; [reflexivity|].
  rewrite IH. reflexivity.
Qed.

Lemma filter_idem (p : A -> bool) (l : list A) :
  filter p (filter p l) = filter p l.
Proof.
  induction l as [|x l IH]; cbn; [reflexivity|].
  destruct (p x) eqn:E; cbn; rewrite ?E, IH; reflexivity.
Qed.

End MaskFacts.

Lemma clean_rows_filters (df : list RawTrip) :
  clean_rows df =
  filter keeps_window
    (filter keeps_order
       (filter keeps_fare_max
          (filter keeps_fare_pos
             (filter keeps_distance (filter keeps_present df))))).
Proof.
  unfold clean_rows, dropna_required, gt_scalar_f, le_scalar_f, gt_series,
    ge_scalar, lt_scalar, col.
  cbv zeta.
  rewrite !map_map, !zip_with_map, !and_map, !getitem_mask_map.
  reflexivity.
Qed.

Lemma clean_rows_In (df : list RawTrip) (r : RawTrip) :
  In r (clean_rows df) <->
  In r df /\ keeps_present r = true /\ keeps_distance r = true
  /\ keeps_fare_pos r = true /\ keeps_fare_max r = true
  /\ keeps_order r = true /\ keeps_window r = true.
Proof.
  rewrite clean_rows_filters, !filter_In. tauto.
Qed.

Lemma keeps_present_spec (r : RawTrip) :
  keeps_present r = true ->
  tpep_pickup_datetime r <> None /\ tpep_dropoff_datetime r <> None
  /\ PULocationID r <> None /\ DOLocationID r <> None
  /\ is_nan (fare_amount r) = false.
Proof.
  unfold keeps_present, has_na_required.
  destruct (tpep_pickup_datetime r), (tpep_dropoff_datetime r),
    (PULocationID r), (DOLocationID r), (is_nan (fare_amount r));
    cbn; intro H; try discriminate H; repeat split; discriminate.
Qed.

Lemma clean_rows_ok (df : list RawTrip) (r : RawTrip) :
  In r (clean_rows df) -> cleaned_ok (derive r).
Proof.
  rewrite clean_rows_In.
  intros (_ & Hp & Hd & Hf0 & Hf1 & Ho & Hw).
  unfold cleaned_ok, required_present. cbn [raw derive].
  split; [exact (keeps_present_spec r Hp)|].
  repeat split; try assumption.
  unfold keeps_order, keeps_window, cmp_opt in Ho, Hw.
  destruct (tpep_pickup_datetime r) as [p|], (tpep_dropoff_datetime r) as [d|];
    try discriminate.
  exists p, d. apply andb_prop in Hw as [Hw1 Hw2].
  fold window_start window_end.
  repeat split; lia.
Qed.

Lemma clean_ok (df : list RawTrip) : Forall cleaned_ok (clean df).
Proof.
  unfold clean. rewrite Forall_forall. intros t Ht.
  apply in_map_iff in Ht as (r & <- & Hr).
  exact (clean_rows_ok df r Hr).
Qed.

(* ------------------------------------------------------------------ *)
(** ** The cleaned snapshot *)

Example window_bounds :
  window_start = 1704067200 * Time.us_per_second
  /\ window_end = 1706745600 * Time.us_per_second
  /\ Time.dt_date (Some window_start) = Some 19723.
Proof. vm_compute. repeat split. Qed.

Example sample_raw_cleaned :
  map (fun t : Trip => (PULocationID t, trip_duration_minutes t,
                        trip_speed_mph t, pickup_hour t, pickup_day_of_week t))
      (clean sample_raw)
  = [ (Some 1, 10%float, 15%float, Some 13, Some "Friday");
      (Some 7, 11%float, (1.5 / (11 / 60))%float, Some 23, Some "Wednesday") ].
Proof. vm_compute. reflexivity. Qed.

(** C1. When [load_data] produces the cleaned snapshot (no snapshot file is
    there yet), every row of the snapshot it writes and returns has its
    required fields present, a distance above 0, a fare above 0 and at most
    500, a dropoff strictly after the pickup, and a pickup on or after
    2024-01-01 and before 2024-02-01. *)
Theorem load_data_snapshot_invariants (net : Remote) (fs : Files) :
  cleaned_parquet fs = None ->
  let '(df, _, fs') := load_data net fs in
  cleaned_parquet fs' = Some df /\ Forall cleaned_ok df.
Proof.
  intro Hnone. unfold load_data.
  destruct (zone_csv fs) as [z|]; cbn [cleaned_parquet]; rewrite Hnone;
    split; try reflexivity; apply clean_ok.
Qed.

Lemma load_data_snapshot_invariants_witness :
  cleaned_parquet no_files = None
  /\ (let '(df, _, fs') := load_data sample_net no_files in
      cleaned_parquet fs' = Some df /\ Forall cleaned_ok df).
Proof.
  split; [reflexivity|].
  apply (load_data_snapshot_invariants sample_net no_files). reflexivity.
Defined.

(** A second call finds the snapshot and returns it as it is. *)
Lemma load_data_again (net net' : Remote) (fs : Files) :
  let '(df, zones, fs') := load_data net fs in
  load_data net' fs' = ((df, zones), fs').
Proof.
  unfold load_data.
  destruct (zone_csv fs) as [z|] eqn:Ez, (cleaned_parquet fs) as [s|] eqn:Es;
    cbn; rewrite ?Ez, ?Es; reflexivity.
Qed.

(* ------------------------------------------------------------------ *)
(** ** Duration and speed *)

Lemma us_per_second_float : F64.of_Z Time.us_per_second = 1000000%float.
Proof. reflexivity. Qed.

Lemma duration_not_nan (z : Z) :
  is_nan (F64.of_Z z / 1000000 / 60)%float = false.
Proof.
  apply F64Facts.not_nan_spec.
  rewrite !div_spec.
  change (Prim2SF 60%float) with (S754_finite false 8444249301319680 (-47)).
  change (Prim2SF 1000000%float)
    with (S754_finite false 8589934592000000 (-33)).
  apply F64Facts.div_finite_not_nan, F64Facts.div_finite_not_nan,
    F64Facts.of_Z_not_nan.
Qed.

Lemma speed_mph_cases (r : RawTrip) (duration : float) :
  ((duration <=? 0)%float = true -> speed_mph r duration = 0%float)
  /\ (is_nan duration = false -> (duration <=? 0)%float = false ->
      speed_mph r duration = (trip_distance r / (duration / 60))%float).
Proof.
  unfold speed_mph, where_, F64.gt. split.
  - intro H. now rewrite (F64Facts.le_zero_not_gt _ H).
  - intros Hn H. now rewrite (F64Facts.not_le_zero_gt _ Hn H).
Qed.

(** C5. On every row of the cleaned snapshot the duration in minutes is the
    difference of dropoff and pickup in seconds divided by 60; the speed is 0
    whenever that duration is at most 0, and otherwise it is exactly the
    distance divided by (duration / 60). *)
Theorem trip_speed_of_cleaned (df : list RawTrip) (t : Trip) :
  In t (clean df) ->
  exists p d,
    tpep_pickup_datetime t = Some p /\ tpep_dropoff_datetime t = Some d
    /\ trip_duration_minutes t = (F64.of_Z (d - p) / 1000000 / 60)%float
    /\ ((trip_duration_minutes t <=? 0)%float = true ->
        trip_speed_mph t = 0%float)
    /\ ((trip_duration_minutes t <=? 0)%float = false ->
        trip_speed_mph t
        = (trip_distance t / (trip_duration_minutes t / 60))%float).
Proof.
  unfold clean. intro Ht.
  apply in_map_iff in Ht as (r & <- & Hr).
  apply clean_rows_In in Hr as (_ & _ & _ & _ & _ & Ho & _).
  unfold keeps_order, cmp_opt in Ho.
  destruct (tpep_pickup_datetime r) as [p|] eqn:Ep; [|
    destruct (tpep_dropoff_datetime r); discriminate].
  destruct (tpep_dropoff_datetime r) as [d|] eqn:Ed; [|discriminate].
  exists p, d. cbn [raw derive trip_duration_minutes trip_speed_mph].
  assert (Hdur : duration_minutes r = (F64.of_Z (d - p) / 1000000 / 60)%float).
  { unfold duration_minutes, total_seconds.
    now rewrite Ep, Ed, us_per_second_float. }
  repeat split; try assumption.
  - apply speed_mph_cases.
  - apply speed_mph_cases. rewrite Hdur. apply duration_not_nan.
Qed.

Lemma trip_speed_of_cleaned_witness :
  exists p d,
    tpep_pickup_datetime (derive (hd_raw sample_raw)) = Some p
    /\ tpep_dropoff_datetime (derive (hd_raw sample_raw)) = Some d
    /\ trip_duration_minutes (derive (hd_raw sample_raw))
       = (F64.of_Z (d - p) / 1000000 / 60)%float
    /\ ((trip_duration_minutes (derive (hd_raw sample_raw)) <=? 0)%float = true ->
        trip_speed_mph (derive (hd_raw sample_raw)) = 0%float)
    /\ ((trip_duration_minutes (derive (hd_raw sample_raw)) <=? 0)%float = false ->
        trip_speed_mph (derive (hd_raw sample_raw))
        = (trip_distance (derive (hd_raw sample_raw))
           / (trip_duration_minutes (derive (hd_raw sample_raw)) / 60))%float).
Proof.
  apply (trip_speed_of_cleaned sample_raw (derive (hd_raw sample_raw))).
  left. reflexivity.
Defined.

(* ------------------------------------------------------------------ *)
(** ** The filter *)

Lemma filtered_df_filter (df : list Row) (start_date end_date : Z)
    (hour_range : Z * Z) (selected_payments : list string) :
  filtered_df df start_date end_date hour_range selected_payments
  = filter (passes start_date end_date hour_range selected_payments) df.
Proof.
  unfold filtered_df, ge_scalar, le_scalar, isin, col.
  rewrite !map_map, !and_map, getitem_mask_map.
  reflexivity.
Qed.

Lemma isin_spec (v : string) (values : list string) :
  existsb (String.eqb v) values = true <-> In v values.
Proof.
  rewrite existsb_exists. split.
  - intros (x & Hx & E). apply String.eqb_eq in E. now subst.
  - intro H. exists v. split; [exact H | apply String.eqb_refl].
Qed.

Lemma passes_spec (start_date end_date : Z) (hour_range : Z * Z)
    (selected_payments : list string) (r : Row) :
  passes start_date end_date hour_range selected_payments r = true <->
  in_date_range start_date end_date r /\ in_hour_range hour_range r
  /\ label_selected selected_payments r.
Proof.
  unfold passes, in_date_range, in_hour_range, label_selected.
  rewrite !andb_true_iff, isin_spec.
  destruct (tpep_pickup_datetime r) as [p|], (pickup_hour r) as [h|]; cbn;
    split.
  all: try (intros ((((H1 & H2) & H3) & H4) & H5); try discriminate).
  all: try (intros ((p' & E1 & H1) & (h' & E2 & H2) & H3); try discriminate).
  - repeat split; [exists p | exists h | assumption]; split; auto; lia.
  - injection E1 as <-. injection E2 as <-. repeat split; auto; lia.
Qed.

Example filtered_df_sample :
  filtered_df sample_rows (day 4) (day 5) (9, 10) ["Cash"; "Other"]
  = [ sample_row (jan 4 9 30) "Cash"; sample_row (jan 5 9 0) "Other" ].
Proof. vm_compute. reflexivity. Qed.

(** C2. The filter returns exactly the rows that satisfy the date test, the
    hour test and the label test together: it is the frame restricted to the
    rows that pass, in the order of the frame and as often as they occur
    there, and a row is in the output iff it is in the frame and satisfies
    all three. This holds for every hour range, so for 0 <= startHour <=
    endHour <= 23 too. *)
Theorem filtered_df_exact (df : list Row) (start_date end_date : Z)
    (hour_range : Z * Z) (selected_payments : list string) :
  filtered_df df start_date end_date hour_range selected_payments
  = filter (passes start_date end_date hour_range selected_payments) df
  /\ (forall r,
        passes start_date end_date hour_range selected_payments r = true
        <-> in_date_range start_date end_date r
            /\ in_hour_range hour_range r
            /\ label_selected selected_payments r)
  /\ (forall r,
        In r (filtered_df df start_date end_date hour_range selected_payments)
        <-> In r df /\ in_date_range start_date end_date r
            /\ in_hour_range hour_range r
            /\ label_selected selected_payments r).
Proof.
  split; [apply filtered_df_filter|].
  split; [intro r; apply passes_spec|].
  intro r. rewrite filtered_df_filter, filter_In, passes_spec. reflexivity.
Qed.

(** C7. With no payment label selected the filtered view is empty, whatever
    the frame, the dates and the hours. *)
Theorem filtered_df_no_label (df : list Row) (start_date end_date : Z)
    (hour_range : Z * Z) :
  filtered_df df start_date end_date hour_range [] = [].
Proof.
  rewrite filtered_df_filter.
  induction df as [|r df IH]; [reflexivity|].
  cbn [filter]. unfold passes at 1. cbn [existsb].
  rewrite andb_false_r. exact IH.
Qed.

(** C8. When one date [d] is picked, the filter runs and gives the view of
    the range from [d] to [d]. *)
Theorem apply_filters_single_date (df : list Row) (d : Z)
    (hour_range : Z * Z) (selected_payments : list string) :
  apply_filters df [d] hour_range selected_payments
  = Some (filtered_df df d d hour_range selected_payments)
  /\ apply_filters df [d] hour_range selected_payments
     = apply_filters df [d; d] hour_range selected_payments.
Proof.
  unfold apply_filters, date_bounds. split; reflexivity.
Qed.

Example apply_filters_single_date_sample :
  apply_filters sample_rows [day 4] (0, 23) ["Cash"]
  = Some [ sample_row (jan 4 9 30) "Cash"; sample_row (jan 4 17 0) "Cash" ].
Proof. vm_compute. reflexivity. Qed.

(** With no date picked, [date_range[0]] raises. *)
Example apply_filters_no_date (df : list Row) (hour_range : Z * Z)
    (selected_payments : list string) :
  apply_filters df [] hour_range selected_payments = None.
Proof. reflexivity. Qed.

(** C9. Filtering the filtered view again with the same dates, hours and
    labels gives the same view. *)
Theorem filtered_df_idempotent (df : list Row) (start_date end_date : Z)
    (hour_range : Z * Z) (selected_payments : list string) :
  filtered_df
    (filtered_df df start_date end_date hour_range selected_payments)
    start_date end_date hour_range selected_payments
  = filtered_df df start_date end_date hour_range selected_payments.
Proof.
  rewrite !filtered_df_filter. apply filter_idem.
Qed.

(** On the frame the dashboard builds, the hour and the label a row is
    filtered by are those of its pickup time and of its payment type. *)
Lemma dashboard_row_columns (raw_df : list RawTrip) (r : Row) :
  In r (add_payment_label (clean raw_df)) ->
  pickup_hour r = Time.dt_hour (tpep_pickup_datetime r)
  /\ payment_label r = label_of (payment_type r).
Proof.
  unfold add_payment_label, clean. intro H.
  apply in_map_iff in H as (t & <- & Ht).
  apply in_map_iff in Ht as (x & <- & _).
  split; reflexivity.
Qed.

(* ------------------------------------------------------------------ *)
(** ** Payment labels *)

Lemma label_of_unmapped (k : Z) :
  ~ In k (map fst payment_labels) -> label_of (Some k) = "Other".
Proof.
  unfold label_of, map_dict, payment_labels. cbn [map fst In dict_get].
  intro H.
  repeat match goal with
         | |- context [k =? ?c] =>
             destruct (Z.eqb_spec k c) as [->|_]; [exfalso; tauto|]
         end.
  reflexivity.
Qed.

Lemma label_of_spec (code : option Z) : label_of code = spec_label code.
Proof.
  destruct code as [k|]; [|reflexivity].
  destruct (in_dec Z.eq_dec k (map fst payment_labels)) as [Hin|Hout].
  - cbn in Hin. intuition (subst; reflexivity).
  - rewrite (label_of_unmapped k Hout).
    cbn in Hout.
    assert (H : k <> 1 /\ k <> 2 /\ k <> 3 /\ k <> 4 /\ k <> 5) by lia.
    destruct k as [|p|p]; try reflexivity.
    destruct p as [[[p|p|]|[p|p|]|]|[[p|p|]|[p|p|]|]|]; try reflexivity; lia.
Qed.

(** C6. The label of a row is given by its payment type code: 1 is Credit
    Card, 2 Cash, 3 No Charge, 4 Dispute, 5 Unknown, and every other code,
    99 among them, and a missing code give Other. The label is a new column:
    the rows keep all their other columns, the payment type code with them. *)
Theorem payment_label_mapping (df : list Trip) :
  (forall code, label_of code = spec_label code)
  /\ label_of (Some 1) = "Credit Card"
  /\ label_of (Some 99) = "Other"
  /\ label_of None = "Other"
  /\ map trip (add_payment_label df) = df
  /\ map payment_label (add_payment_label df)
     = map (fun t : Trip => label_of (payment_type t)) df
  /\ map (fun r : Row => payment_type r) (add_payment_label df)
     = map (fun t : Trip => payment_type t) df.
Proof.
  split; [exact label_of_spec|].
  unfold add_payment_label. rewrite !map_map. cbn [trip payment_label].
  repeat split. apply map_id.
Qed.

(* ------------------------------------------------------------------ *)
(** ** Key metrics of an empty view *)

Example key_metrics_sample :
  key_metrics sample_rows
  = {| total_trips := "6"; avg_fare := "$5.00"; total_revenue := "$36";
       avg_distance := "1.00 mi"; avg_duration := "1.0 min" |}.
Proof. vm_compute. reflexivity. Qed.

Example fixed_samples :
  PyFormat.fixed true 2 1234567.125 = "1,234,567.12"
  /\ PyFormat.fixed true 0 2.5 = "2"
  /\ PyFormat.fixed false 1 (-0.25) = "-0.2"
  /\ PyFormat.fixed false 2 infinity = "inf"
  /\ PyFormat.int_comma 2800000 = "2,800,000".
Proof. vm_compute. repeat split. Qed.

(** C4, as the claim has it, fails on the empty view: the mean fare there is
    NaN and its card shows the text of NaN, not a state of its own. *)
Lemma key_metrics_empty_shows_nan :
  is_nan (series_mean (col (fun r : Row => fare_amount r) [])) = true
  /\ avg_fare (key_metrics []) = "$nan"
  /\ avg_distance (key_metrics []) = "nan mi"
  /\ avg_duration (key_metrics []) = "nan min".
Proof. vm_compute. repeat split. Qed.

(** C4, amended. On the empty view the metrics are computed without an
    error: the count is 0 and shown as 0, the sum of the total amounts is 0,
    and each of the three means is NaN and is shown as the text nan. *)
Theorem key_metrics_empty :
  key_metrics []
  = {| total_trips := "0"; avg_fare := "$nan"; total_revenue := "$0";
       avg_distance := "nan mi"; avg_duration := "nan min" |}
  /\ series_sum (col (fun r : Row => total_amount r) []) = 0%float
  /\ is_nan (series_mean (col (fun r : Row => fare_amount r) [])) = true
  /\ is_nan (series_mean (col (fun r : Row => trip_distance r) [])) = true
  /\ is_nan (series_mean (col (fun r : Row => trip_duration_minutes r) []))
     = true.
Proof.
  unfold key_metrics, series_mean, series_sum, np_sum, fill_zero, notna, col.
  cbn [map filter List.length Z.of_nat Z.ltb Z.compare].
  repeat split.
Qed.

(* ------------------------------------------------------------------ *)
(** ** Grouping and counting *)

Section GroupFacts.

Lemma compare_Eq_eq (a b : string) : String.compare a b = Eq <-> a = b.
Proof. apply OrderedTypeEx.String_as_OT.cmp_eq. Qed.

Lemma compare_Lt_neq (a b : string) : String.compare a b = Lt -> a <> b.
Proof.
  intros H E. apply compare_Eq_eq in E. congruence.
Qed.

Lemma compare_Lt_trans (a b c : string) :
  String.compare a b = Lt -> String.compare b c = Lt ->
  String.compare a c = Lt.
Proof.
  intros H1 H2. apply OrderedTypeEx.String_as_OT.cmp_lt.
  apply OrderedTypeEx.String_as_OT.cmp_lt in H1, H2.
  exact (OrderedTypeEx.String_as_OT.lt_trans _ _ _ H1 H2).
Qed.

Lemma compare_Gt_Lt (a b : string) :
  String.compare a b = Gt -> String.compare b a = Lt.
Proof.
  intro H. rewrite String.compare_antisym, H. reflexivity.
Qed.

Lemma total_of_bump (k k' : string) (acc : list (string * Z)) :
  total_of k' (bump k acc)
  = total_of k' acc + (if String.eqb k' k then 1 else 0).
Proof.
  induction acc as [|[k0 n] rest IH]; cbn [bump total_of].
  - lia.
  - destruct (String.compare k k0) eqn:E; cbn [total_of].
    + apply compare_Eq_eq in E. subst k0.
      destruct (String.eqb k' k); lia.
    + lia.
    + rewrite IH. lia.
Qed.

Lemma total_of_fold (k : string) (keys : list (option string)) :
  forall acc,
    total_of k
      (fold_left (fun acc o => match o with
                               | Some x => bump x acc
                               | None => acc
                               end) keys acc)
    = total_of k acc + count_key k keys.
Proof.
  unfold count_key.
  induction keys as [|o keys IH]; intro acc; cbn [fold_left filter].
  - cbn. lia.
  - rewrite IH. destruct o as [x|]; cbn [is_key].
    + rewrite total_of_bump.
      destruct (String.eqb k x); cbn [List.length]; lia.
    + reflexivity.
Qed.

Lemma total_of_groupby (k : string) (keys : list (option string)) :
  total_of k (groupby_size keys) = count_key k keys.
Proof. unfold groupby_size. now rewrite total_of_fold. Qed.

Lemma bump_Forall (Q : string * Z -> Prop) (k : string)
    (acc : list (string * Z)) :
  Q (k, 1) -> (forall n, Q (k, n) -> Q (k, n + 1)) ->
  Forall Q acc -> Forall Q (bump k acc).
Proof.
  intros Q1 Qs. induction 1 as [|[k0 n] rest Hx Hr IH]; cbn [bump].
  - constructor; [exact Q1 | constructor].
  - destruct (String.compare k k0) eqn:E.
    + apply compare_Eq_eq in E. subst k0.
      constructor; [exact (Qs n Hx) | exact Hr].
    + constructor; [exact Q1 | constructor; assumption].
    + constructor; assumption.
Qed.

Lemma bump_sorted (k : string) (acc : list (string * Z)) :
  StronglySorted key_lt acc -> StronglySorted key_lt (bump k acc).
Proof.
  induction 1 as [|[k0 n] rest Hs IH Hall]; cbn [bump].
  - repeat constructor.
  - destruct (String.compare k k0) eqn:E.
    + constructor; [exact Hs | exact Hall].
    + constructor; [constructor; assumption|].
      constructor; [exact E|].
      eapply Forall_impl; [|exact Hall].
      intros b Hb. exact (compare_Lt_trans _ _ _ E Hb).
    + constructor; [exact IH|].
      apply bump_Forall; [exact (compare_Gt_Lt _ _ E) | auto | exact Hall].
Qed.

Lemma groupby_fold_inv (P : list (string * Z) -> Prop) :
  (forall k acc, P acc -> P (bump k acc)) ->
  forall keys acc, P acc ->
    P (fold_left (fun acc o => match o with
                               | Some x => bump x acc
                               | None => acc
                               end) keys acc).
Proof.
  intros Hb. induction keys as [|[x|] keys IH]; intros acc Ha; cbn; auto.
Qed.

Lemma groupby_size_sorted (keys : list (option string)) :
  StronglySorted key_lt (groupby_size keys).
Proof.
  unfold groupby_size.
  apply (groupby_fold_inv (StronglySorted key_lt));
    [intros; now apply bump_sorted | constructor].
Qed.

Lemma groupby_size_positive (keys : list (option string)) :
  Forall (fun p => 1 <= snd p) (groupby_size keys).
Proof.
  unfold groupby_size.
  apply (groupby_fold_inv (Forall (fun p => 1 <= snd p))); [|constructor].
  intros k acc H. apply bump_Forall; cbn; auto; lia.
Qed.

Lemma total_of_absent (k : string) (acc : list (string * Z)) :
  Forall (fun p => fst p <> k) acc -> total_of k acc = 0.
Proof.
  induction 1 as [|[k0 n] rest Hx _ IH]; cbn [total_of]; [reflexivity|].
  cbn in Hx. destruct (String.eqb_spec k k0); [congruence | lia].
Qed.

Lemma total_of_sorted_In (k : string) (n : Z) (acc : list (string * Z)) :
  StronglySorted key_lt acc -> In (k, n) acc -> total_of k acc = n.
Proof.
  induction 1 as [|[k0 n0] rest Hs IH Hall]; intro Hin; [destruct Hin|].
  cbn [total_of]. destruct Hin as [E|Hin].
  - injection E as -> ->. rewrite String.eqb_refl, total_of_absent; [lia|].
    eapply Forall_impl; [|exact Hall].
    intros b Hb E. exact (compare_Lt_neq _ _ Hb (eq_sym E)).
  - rewrite (IH Hin).
    rewrite Forall_forall in Hall. specialize (Hall _ Hin).
    destruct (String.eqb_spec k k0) as [->|_]; [|lia].
    exfalso. exact (compare_Lt_neq _ _ Hall eq_refl).
Qed.

Lemma total_of_present (k : string) (acc : list (string * Z)) :
  total_of k acc <> 0 -> exists n, In (k, n) acc.
Proof.
  induction acc as [|[k0 n0] rest IH]; cbn [total_of]; [congruence|].
  destruct (String.eqb_spec k k0) as [->|_]; intro H.
  - exists n0. now left.
  - destruct IH as [n Hn]; [lia|]. exists n. now right.
Qed.

(** [groupby(...).size()] has one row per key that occurs, with the number
    of its occurrences. *)
Lemma groupby_size_spec (keys : list (option string)) (k : string) (n : Z) :
  In (k, n) (groupby_size keys) <-> n = count_key k keys /\ 0 < n.
Proof.
  split.
  - intro Hin. split.
    + rewrite <- total_of_groupby.
      symmetry. apply total_of_sorted_In; [apply groupby_size_sorted | exact Hin].
    + pose proof (groupby_size_positive keys) as Hp.
      rewrite Forall_forall in Hp. specialize (Hp _ Hin). cbn in Hp. lia.
  - intros [-> Hpos].
    destruct (total_of_present k (groupby_size keys)) as [m Hm].
    + rewrite total_of_groupby. lia.
    + pose proof (total_of_sorted_In k m _ (groupby_size_sorted keys) Hm) as E.
      rewrite total_of_groupby in E. now rewrite E.
Qed.

End GroupFacts.

(* ------------------------------------------------------------------ *)
(** ** Sorting by count and taking the head *)

Section SortFacts.

Lemma insert_desc_perm (b : bool) (x : string * Z) (l : list (string * Z)) :
  Permutation (x :: l) (insert_desc b x l).
Proof.
  induction l as [|y l IH]; cbn [insert_desc]; [reflexivity|].
  destruct (if b then snd y <=? snd x else snd y <? snd x); [reflexivity|].
  rewrite perm_swap. now apply perm_skip.
Qed.

Lemma sort_desc_perm (b : bool) (l : list (string * Z)) :
  Permutation l (sort_desc b l).
Proof.
  induction l as [|x l IH]; cbn; [constructor|].
  rewrite <- insert_desc_perm. now apply perm_skip.
Qed.

Lemma insert_desc_sorted (b : bool) (x : string * Z) (l : list (string * Z)) :
  StronglySorted count_ge l -> StronglySorted count_ge (insert_desc b x l).
Proof.
  induction 1 as [|y l Hs IH Hall]; cbn [insert_desc].
  - repeat constructor.
  - destruct (if b then snd y <=? snd x else snd y <? snd x) eqn:E.
    + assert (Hyx : snd y <= snd x) by (destruct b; lia).
      constructor; [constructor; assumption|].
      constructor; [exact Hyx|].
      eapply Forall_impl; [|exact Hall].
      unfold count_ge. intros z Hz. lia.
    + assert (Hxy : snd x <= snd y) by (destruct b; lia).
      constructor; [exact IH|].
      rewrite <- insert_desc_perm. constructor; assumption.
Qed.

Lemma sort_desc_sorted (b : bool) (l : list (string * Z)) :
  StronglySorted count_ge (sort_desc b l).
Proof.
  induction l as [|x l IH]; cbn; [constructor|].
  now apply insert_desc_sorted.
Qed.

(** Both insertion sorts are sorts [sort_values] may be. *)
Lemma sort_desc_allowed (b : bool) (l : list (string * Z)) :
  sort_values_desc l (sort_desc b l).
Proof. split; [apply sort_desc_perm | apply sort_desc_sorted]. Qed.

Context {A : Type} (R : A -> A -> Prop).

Lemma StronglySorted_app_l (l1 l2 : list A) :
  StronglySorted R (l1 ++ l2) -> StronglySorted R l1.
Proof.
  induction l1 as [|x l1 IH]; cbn; intro H; [constructor|].
  inversion H as [|? ? Hs Hall]; subst.
  constructor; [now apply IH|].
  apply Forall_app in Hall. tauto.
Qed.

Lemma StronglySorted_app_cross (l1 l2 : list A) :
  StronglySorted R (l1 ++ l2) ->
  forall a b, In a l1 -> In b l2 -> R a b.
Proof.
  induction l1 as [|x l1 IH]; cbn; intros H a b Ha Hb; [destruct Ha|].
  inversion H as [|? ? Hs Hall]; subst.
  destruct Ha as [<-|Ha].
  - rewrite Forall_forall in Hall. apply Hall, in_or_app. now right.
  - now apply IH.
Qed.

End SortFacts.

(* ------------------------------------------------------------------ *)
(** ** The sort numpy runs *)

Section ArgSortFacts.
Context {A : Type} (v : A -> Z).


Lemma upd_length (i : nat) (x : A) (a : list A) :
  (i < List.length a)%nat -> List.length (upd i x a) = List.length a.
Proof.
  intro Hi. unfold upd. rewrite length_app, length_firstn. cbn [List.length].
  rewrite length_skipn. lia.
Qed.

Lemma nth_error_upd (i : nat) (x : A) (a : list A) (k : nat) :
  (i < List.length a)%nat ->
  nth_error (upd i x a) k = if (k =? i)%nat then Some x else nth_error a k.
Proof.
  intro Hi. unfold upd.
  assert (Hlen : List.length (firstn i a) = i)
    by (rewrite length_firstn; lia).
  destruct (Nat.eqb_spec k i) as [->|Hne].
  - rewrite nth_error_app2 by lia. rewrite Hlen, Nat.sub_diag. reflexivity.
  - destruct (Nat.lt_ge_cases k i) as [Hlt|Hge].
    + rewrite nth_error_app1 by lia. rewrite nth_error_firstn.
      apply Nat.ltb_lt in Hlt. now rewrite Hlt.
    + rewrite nth_error_app2 by lia. rewrite Hlen.
      replace (k - i)%nat with (S (k - S i)) by lia. cbn [nth_error].
      rewrite nth_error_skipn. f_equal. lia.
Qed.

Lemma swap_length (i j : nat) (a : list A) :
  List.length (swap i j a) = List.length a.
Proof.
  unfold swap.
  destruct (nth_error a i) as [x|] eqn:Ei; [|reflexivity].
  destruct (nth_error a j) as [y|] eqn:Ej; [|reflexivity].
  assert (Hi : (i < List.length a)%nat) by (apply nth_error_Some; congruence).
  assert (Hj : (j < List.length a)%nat) by (apply nth_error_Some; congruence).
  rewrite upd_length; rewrite upd_length; lia.
Qed.

Lemma nth_error_swap (i j : nat) (a : list A) (k : nat) :
  (i < List.length a)%nat -> (j < List.length a)%nat ->
  nth_error (swap i j a) k
  = if (k =? j)%nat then nth_error a i
    else if (k =? i)%nat then nth_error a j
    else nth_error a k.
Proof.
  intros Hi Hj. unfold swap.
  destruct (nth_error a i) as [x|] eqn:Ei;
    [|apply nth_error_None in Ei; lia].
  destruct (nth_error a j) as [y|] eqn:Ej;
    [|apply nth_error_None in Ej; lia].
  rewrite nth_error_upd by (rewrite upd_length; lia).
  destruct (k =? j)%nat; [reflexivity|].
  rewrite nth_error_upd by lia. reflexivity.
Qed.

Lemma swap_perm (i j : nat) (a : list A) : Permutation a (swap i j a).
Proof.
  destruct (Nat.lt_ge_cases i (List.length a)) as [Hi|Hi];
    [|unfold swap; apply nth_error_None in Hi; now rewrite Hi].
  destruct (Nat.lt_ge_cases j (List.length a)) as [Hj|Hj];
    [|unfold swap; apply nth_error_None in Hj; rewrite Hj;
      now destruct (nth_error a i)].
  apply Permutation_nth_error. split; [now rewrite swap_length|].
  exists (fun k => if (k =? j)%nat then i else if (k =? i)%nat then j else k).
  split.
  - intros x y.
    destruct (Nat.eqb_spec x j), (Nat.eqb_spec x i), (Nat.eqb_spec y j),
      (Nat.eqb_spec y i); lia.
  - intro k. rewrite nth_error_swap by assumption.
    destruct (k =? j)%nat; [reflexivity|]. now destruct (k =? i)%nat.
Qed.

(** The inner loops stop at the first element that fails the test. *)
Lemma run_length_passed (p : A -> bool) (l : list A) (k : nat) (x : A) :
  (k < run_length p l)%nat -> nth_error l k = Some x -> p x = true.
Proof.
  revert k. induction l as [|y l IH]; intros k Hk E; [cbn in Hk; lia|].
  cbn [run_length] in Hk. destruct (p y) eqn:Ey; [|lia].
  destruct k as [|k]; [cbn in E; congruence|].
  apply (IH k); [lia | exact E].
Qed.

Lemma run_length_stop (p : A -> bool) (l : list A) (x : A) :
  nth_error l (run_length p l) = Some x -> p x = false.
Proof.
  induction l as [|y l IH]; cbn [run_length]; [discriminate|].
  destruct (p y) eqn:Ey; cbn [nth_error]; [exact IH | congruence].
Qed.

Lemma run_length_bound (p : A -> bool) (l : list A) (k : nat) (x : A) :
  nth_error l k = Some x -> p x = false -> (run_length p l <= k)%nat.
Proof.
  revert k. induction l as [|y l IH]; intros k E Hx; [cbn; lia|].
  cbn [run_length]. destruct (p y) eqn:Ey; [|lia].
  destruct k as [|k]; [cbn in E; congruence|].
  specialize (IH k E Hx). lia.
Qed.


Lemma scan_up_spec (vp : Z) (a : list A) (pi k : nat) (x : A) :
  (pi < k)%nat -> nth_error a k = Some x -> vp <= v x ->
  (pi < scan_up v vp a pi <= k)%nat
  /\ (exists y, nth_error a (scan_up v vp a pi) = Some y /\ vp <= v y)
  /\ (forall i y, (pi < i < scan_up v vp a pi)%nat ->
                  nth_error a i = Some y -> v y < vp).
Proof.
  intros Hk Ex Hx. unfold scan_up.
  set (p := fun x : A => v x <? vp).
  set (l := skipn (S pi) a).
  assert (Hat : forall m, nth_error l m = nth_error a (S pi + m))
    by (intro m; apply nth_error_skipn).
  assert (Hn : (run_length p l <= k - S pi)%nat).
  { apply (run_length_bound p l _ x).
    - rewrite Hat. replace (S pi + (k - S pi))%nat with k by lia. exact Ex.
    - unfold p. lia. }
  split; [lia|]. split.
  - destruct (nth_error a (S pi + run_length p l)) as [y|] eqn:Ey.
    + exists y. split; [reflexivity|].
      rewrite <- Hat in Ey. apply run_length_stop in Ey. unfold p in Ey. lia.
    + apply nth_error_None in Ey.
      assert ((k < List.length a)%nat) by (apply nth_error_Some; congruence).
      lia.
  - intros i y Hi Ey.
    assert (Hp : p y = true).
    { apply (run_length_passed p l (i - S pi)); [lia|].
      rewrite Hat. replace (S pi + (i - S pi))%nat with i by lia. exact Ey. }
    unfold p in Hp. lia.
Qed.

Lemma scan_down_spec (vp : Z) (a : list A) (pj k : nat) (x : A) :
  (k < pj)%nat -> (pj <= List.length a)%nat ->
  nth_error a k = Some x -> v x <= vp ->
  (k <= scan_down v vp a pj < pj)%nat
  /\ (exists y, nth_error a (scan_down v vp a pj) = Some y /\ v y <= vp)
  /\ (forall j y, (scan_down v vp a pj < j < pj)%nat ->
                  nth_error a j = Some y -> vp < v y).
Proof.
  intros Hk Hpj Ex Hx. unfold scan_down.
  set (p := fun x : A => vp <? v x).
  set (l := rev (firstn pj a)).
  assert (Hat : forall m, (m < pj)%nat ->
                          nth_error l m = nth_error a (pj - S m)).
  { intros m Hm. unfold l. rewrite nth_error_rev, length_firstn.
    replace (Nat.min pj (List.length a)) with pj by lia.
    apply Nat.ltb_lt in Hm as Hm'. rewrite Hm'.
    rewrite nth_error_firstn.
    replace (pj - S m <? pj)%nat with true; [reflexivity|].
    symmetry. apply Nat.ltb_lt. lia. }
  assert (Hn : (run_length p l <= pj - S k)%nat).
  { apply (run_length_bound p l _ x).
    - rewrite Hat by lia. replace (pj - S (pj - S k))%nat with k by lia.
      exact Ex.
    - unfold p. lia. }
  split; [lia|]. split.
  - destruct (nth_error a (Nat.pred pj - run_length p l)) as [y|] eqn:Ey.
    + exists y. split; [reflexivity|].
      replace (Nat.pred pj - run_length p l)%nat
        with (pj - S (run_length p l))%nat in Ey by lia.
      rewrite <- Hat in Ey by lia.
      apply run_length_stop in Ey. unfold p in Ey. lia.
    + apply nth_error_None in Ey. lia.
  - intros j y Hj Ey.
    assert (Hp : p y = true).
    { apply (run_length_passed p l (pj - S j)); [lia|].
      rewrite Hat by lia. replace (pj - S (pj - S j))%nat with j by lia.
      exact Ey. }
    unfold p in Hp. lia.
Qed.

(** The sweep leaves the values up to the pivot's before [pi] and the
    values from the pivot's on from [pi]; it does not touch the array from
    the [pj] it starts with. *)
Lemma sweep_spec (rounds : nat) (vp : Z) :
  forall (a : list A) (pi pj : nat),
    (pj - pi <= rounds)%nat -> (pi < pj)%nat -> (pj < List.length a)%nat ->
    (forall i x, (i <= pi)%nat -> nth_error a i = Some x -> v x <= vp) ->
    (forall j x, (pj <= j)%nat -> nth_error a j = Some x -> vp <= v x) ->
    Permutation a (fst (sweep v rounds vp a pi pj))
    /\ (pi < snd (sweep v rounds vp a pi pj) <= pj)%nat
    /\ (forall i x, (i < snd (sweep v rounds vp a pi pj))%nat ->
           nth_error (fst (sweep v rounds vp a pi pj)) i = Some x ->
           v x <= vp)
    /\ (forall j x, (snd (sweep v rounds vp a pi pj) <= j)%nat ->
           nth_error (fst (sweep v rounds vp a pi pj)) j = Some x ->
           vp <= v x)
    /\ (forall j, (pj <= j)%nat ->
           nth_error (fst (sweep v rounds vp a pi pj)) j = nth_error a j).
Proof.
  induction rounds as [|rounds IH]; intros a pi pj Hr Hlt Hlen Hlow Hhigh;
    [lia|].
  cbn [sweep].
  destruct (nth_error a pj) as [xj|] eqn:Exj;
    [|apply nth_error_None in Exj; lia].
  destruct (nth_error a pi) as [xi|] eqn:Exi;
    [|apply nth_error_None in Exi; lia].
  destruct (scan_up_spec vp a pi pj xj Hlt Exj (Hhigh _ _ (Nat.le_refl _) Exj))
    as (Hup & (yu & Eyu & Hyu) & Hbelow).
  destruct (scan_down_spec vp a pj pi xi Hlt (Nat.lt_le_incl _ _ Hlen) Exi
              (Hlow _ _ (Nat.le_refl _) Exi))
    as (Hdown & (yd & Eyd & Hyd) & Habove).
  set (pi' := scan_up v vp a pi) in *.
  set (pj' := scan_down v vp a pj) in *.
  destruct (Nat.leb_spec pj' pi') as [Hmeet|Hapart]; cbn [fst snd].
  - split; [reflexivity|]. split; [lia|]. split; [|split].
    + intros i x Hi Ex.
      destruct (Nat.le_gt_cases i pi) as [H|H]; [now apply (Hlow i)|].
      assert (v x < vp) by (apply (Hbelow i); [lia | exact Ex]). lia.
    + intros j x Hj Ex.
      destruct (Nat.le_gt_cases pj j) as [H|H]; [now apply (Hhigh j)|].
      destruct (Nat.eq_dec j pi') as [->|Hne]; [congruence|].
      assert (vp < v x) by (apply (Habove j); [lia | exact Ex]). lia.
    + reflexivity.
  - assert (Hswap : forall k,
              nth_error (swap pi' pj' a) k
              = if (k =? pj')%nat then Some yu
                else if (k =? pi')%nat then Some yd
                else nth_error a k).
    { intro k. rewrite nth_error_swap by lia. now rewrite Eyu, Eyd. }
    destruct (IH (swap pi' pj' a) pi' pj') as (P & B & L & H & U).
    + lia.
    + exact Hapart.
    + rewrite swap_length. lia.
    + intros i x Hi. rewrite Hswap.
      destruct (Nat.eqb_spec i pj'); [lia|].
      destruct (Nat.eqb_spec i pi') as [->|Hne]; [congruence|].
      intro Ex.
      destruct (Nat.le_gt_cases i pi) as [H|H]; [now apply (Hlow i)|].
      assert (v x < vp) by (apply (Hbelow i); [lia | exact Ex]). lia.
    + intros j x Hj. rewrite Hswap.
      destruct (Nat.eqb_spec j pj') as [->|Hne]; [congruence|].
      destruct (Nat.eqb_spec j pi'); [lia|].
      intro Ex.
      destruct (Nat.le_gt_cases pj j) as [H|H]; [now apply (Hhigh j)|].
      assert (vp < v x) by (apply (Habove j); [lia | exact Ex]). lia.
    + split; [now rewrite <- P; apply swap_perm|].
      split; [lia|]. split; [exact L|]. split; [exact H|].
      intros j Hj. rewrite U by lia. rewrite Hswap.
      destruct (Nat.eqb_spec j pj'); [lia|].
      destruct (Nat.eqb_spec j pi'); [lia|]. reflexivity.
Qed.


Lemma swap_if_less_spec (i j : nat) (a : list A) (x y : A) :
  i <> j -> nth_error a i = Some x -> nth_error a j = Some y ->
  Permutation a (swap_if_less v i j a)
  /\ (forall k, k <> i -> k <> j ->
        nth_error (swap_if_less v i j a) k = nth_error a k)
  /\ exists x' y',
       nth_error (swap_if_less v i j a) i = Some x'
       /\ nth_error (swap_if_less v i j a) j = Some y'
       /\ v y' <= v x'
       /\ ((x' = x /\ y' = y) \/ (x' = y /\ y' = x)).
Proof.
  intros Hne Ex Ey. unfold swap_if_less. rewrite Ex, Ey.
  assert (Hi : (i < List.length a)%nat) by (apply nth_error_Some; congruence).
  assert (Hj : (j < List.length a)%nat) by (apply nth_error_Some; congruence).
  destruct (Z.ltb_spec (v x) (v y)) as [Hlt|Hge].
  - split; [apply swap_perm|]. split.
    + intros k Hki Hkj. rewrite nth_error_swap by assumption.
      destruct (Nat.eqb_spec k j); [lia|].
      destruct (Nat.eqb_spec k i); [lia|]. reflexivity.
    + exists y, x. rewrite !nth_error_swap by assumption.
      rewrite !Nat.eqb_refl.
      destruct (Nat.eqb_spec i j); [lia|].
      repeat split; auto; lia.
  - split; [reflexivity|]. split; [reflexivity|].
    exists x, y. repeat split; auto.
Qed.

(** After the three tests the first, middle and last element are in
    order. *)
Lemma median_of_three (a : list A) (pm pr : nat) :
  (0 < pm < pr)%nat -> (pr < List.length a)%nat ->
  Permutation a (swap_if_less v pm 0
                   (swap_if_less v pr pm (swap_if_less v pm 0 a)))
  /\ exists x0 xm xr,
       nth_error (swap_if_less v pm 0
                    (swap_if_less v pr pm (swap_if_less v pm 0 a))) 0
       = Some x0
       /\ nth_error (swap_if_less v pm 0
                       (swap_if_less v pr pm (swap_if_less v pm 0 a))) pm
          = Some xm
       /\ nth_error (swap_if_less v pm 0
                       (swap_if_less v pr pm (swap_if_less v pm 0 a))) pr
          = Some xr
       /\ v x0 <= v xm <= v xr.
Proof.
  intros Hpm Hpr.
  destruct (nth_error a 0) as [x0|] eqn:E0;
    [|apply nth_error_None in E0; lia].
  destruct (nth_error a pm) as [xm|] eqn:Em;
    [|apply nth_error_None in Em; lia].
  destruct (nth_error a pr) as [xr|] eqn:Er;
    [|apply nth_error_None in Er; lia].
  destruct (swap_if_less_spec pm 0 a xm x0)
    as (P1 & K1 & m1 & z1 & Em1 & Ez1 & H1 & C1); [lia | exact Em | exact E0|].
  set (b1 := swap_if_less v pm 0 a) in *.
  assert (Er1 : nth_error b1 pr = Some xr) by (rewrite K1 by lia; exact Er).
  destruct (swap_if_less_spec pr pm b1 xr m1)
    as (P2 & K2 & r2 & m2 & Er2 & Em2 & H2 & C2); [lia | exact Er1 | exact Em1|].
  set (b2 := swap_if_less v pr pm b1) in *.
  assert (Ez2 : nth_error b2 0 = Some z1) by (rewrite K2 by lia; exact Ez1).
  destruct (swap_if_less_spec pm 0 b2 m2 z1)
    as (P3 & K3 & m3 & z3 & Em3 & Ez3 & H3 & C3); [lia | exact Em2 | exact Ez2|].
  set (b3 := swap_if_less v pm 0 b2) in *.
  assert (Er3 : nth_error b3 pr = Some r2) by (rewrite K3 by lia; exact Er2).
  split; [now rewrite P1, P2|].
  exists z3, m3, r2. repeat split; try assumption.
  destruct C1 as [[-> ->]|[-> ->]], C2 as [[-> ->]|[-> ->]],
    C3 as [[-> ->]|[-> ->]]; lia.
Qed.

Lemma partition_spec (a a' : list A) (pi : nat) :
  (3 <= List.length a)%nat -> partition v a = (a', pi) ->
  Permutation a a'
  /\ exists p,
       nth_error a' pi = Some p
       /\ (forall i x, (i < pi)%nat -> nth_error a' i = Some x -> v x <= v p)
       /\ (forall j x, (pi < j)%nat -> nth_error a' j = Some x -> v p <= v x).
Proof.
  intros Hlen. unfold partition.
  remember (List.length a - 1)%nat as pr eqn:Hpr.
  assert (Hpm : (0 < Nat.div2 pr < pr)%nat).
  { split; [|apply Nat.lt_div2; lia].
    destruct pr as [|[|pr']]; [lia | lia | apply Nat.lt_0_succ]. }
  set (pm := Nat.div2 pr) in *.
  destruct (median_of_three a pm pr Hpm ltac:(lia))
    as (P3 & x0 & p & xr & E0 & Em & Er & Hord).
  set (a3 := swap_if_less v pm 0
               (swap_if_less v pr pm (swap_if_less v pm 0 a))) in *.
  rewrite Em.
  assert (L3 : List.length a3 = List.length a)
    by (symmetry; now apply Permutation_length).
  assert (Hat4 : forall k,
            nth_error (swap pm (pr - 1) a3) k
            = if (k =? pr - 1)%nat then Some p
              else if (k =? pm)%nat then nth_error a3 (pr - 1)
              else nth_error a3 k).
  { intro k. rewrite nth_error_swap by lia. now rewrite Em. }
  set (a4 := swap pm (pr - 1) a3) in *.
  assert (L4 : List.length a4 = List.length a)
    by (unfold a4; now rewrite swap_length).
  pose proof (sweep_spec (List.length a4) (v p) a4 0 (pr - 1)) as S.
  destruct (sweep v (List.length a4) (v p) a4 0 (pr - 1)) as [a5 pj] eqn:E5.
  cbn [fst snd] in S.
  destruct S as (P5 & B5 & Low & High & Keep).
  - lia.
  - lia.
  - lia.
  - intros i x Hi. replace i with O by lia. rewrite Hat4.
    destruct (Nat.eqb_spec 0 (pr - 1)); [lia|].
    destruct (Nat.eqb_spec 0 pm); [lia|]. rewrite E0. intro E.
    injection E as <-. lia.
  - intros j x Hj. rewrite Hat4.
    destruct (Nat.eqb_spec j (pr - 1)); [intro E; injection E as <-; lia|].
    destruct (Nat.eqb_spec j pm); [lia|].
    destruct (Nat.eq_dec j pr) as [->|Hne].
    + rewrite Er. intro E. injection E as <-. lia.
    + intro E. assert ((j < List.length a3)%nat)
        by (apply nth_error_Some; congruence). lia.
  - intro E. injection E as <- <-.
    assert (L5 : List.length a5 = List.length a)
      by (rewrite <- L4; symmetry; now apply Permutation_length).
    assert (Ep : nth_error a5 (pr - 1) = Some p).
    { rewrite Keep by lia. rewrite Hat4. now rewrite Nat.eqb_refl. }
    destruct (nth_error a5 pj) as [q|] eqn:Eq;
      [|apply nth_error_None in Eq; lia].
    assert (Hat6 : forall k,
              nth_error (swap pj (pr - 1) a5) k
              = if (k =? pr - 1)%nat then Some q
                else if (k =? pj)%nat then Some p
                else nth_error a5 k).
    { intro k. rewrite nth_error_swap by lia. now rewrite Eq, Ep. }
    split.
    + rewrite P3. unfold a4 in P5. rewrite (swap_perm pm (pr - 1) a3).
      rewrite P5. apply swap_perm.
    + exists p. split; [|split].
      * rewrite Hat6. destruct (Nat.eqb_spec pj (pr - 1)) as [E|_];
          [|now rewrite Nat.eqb_refl].
        rewrite E in Eq. congruence.
      * intros i x Hi. rewrite Hat6.
        destruct (Nat.eqb_spec i (pr - 1)); [lia|].
        destruct (Nat.eqb_spec i pj); [lia|]. now apply Low.
      * intros j x Hj. rewrite Hat6.
        destruct (Nat.eqb_spec j (pr - 1)).
        -- intro E. injection E as <-. apply (High pj); [lia | exact Eq].
        -- destruct (Nat.eqb_spec j pj); [lia|]. apply High. lia.
Qed.


Lemma StronglySorted_app_intro {B : Type} (R : B -> B -> Prop)
    (l1 l2 : list B) :
  StronglySorted R l1 -> StronglySorted R l2 ->
  (forall x y, In x l1 -> In y l2 -> R x y) ->
  StronglySorted R (l1 ++ l2).
Proof.
  induction 1 as [|x l1 Hs IH Hall]; cbn [app]; intros H2 Hc; [exact H2|].
  constructor.
  - apply IH; [exact H2|]. intros a b Ha Hb. apply Hc; [now right | exact Hb].
  - apply Forall_app. split; [exact Hall|].
    apply Forall_forall. intros y Hy. apply Hc; [now left | exact Hy].
Qed.

Lemma StronglySorted_rev_flip {B : Type} (R : B -> B -> Prop) (l : list B) :
  StronglySorted R l -> StronglySorted (fun x y => R y x) (rev l).
Proof.
  induction 1 as [|x l Hs IH Hall]; cbn [rev]; [constructor|].
  apply StronglySorted_app_intro; [exact IH | repeat constructor|].
  intros a b Ha [<-|[]]. rewrite Forall_forall in Hall.
  apply Hall. now apply in_rev.
Qed.

Lemma shift_perm (x : A) (l : list A) : Permutation (x :: l) (shift v x l).
Proof.
  induction l as [|y l IH]; cbn [shift]; [reflexivity|].
  destruct (v x <? v y); [|reflexivity].
  rewrite perm_swap. now apply perm_skip.
Qed.

Lemma shift_sorted (x : A) (l : list A) :
  StronglySorted (descending v) l ->
  StronglySorted (descending v) (shift v x l).
Proof.
  induction 1 as [|y l Hs IH Hall]; cbn [shift]; [repeat constructor|].
  destruct (Z.ltb_spec (v x) (v y)) as [Hlt|Hge].
  - constructor; [exact IH|].
    rewrite <- shift_perm. constructor; [unfold descending; lia | exact Hall].
  - constructor; [now constructor|].
    constructor; [exact Hge|].
    eapply Forall_impl; [|exact Hall]. unfold descending. intros z Hz. lia.
Qed.

Lemma insertion_sort_spec (a : list A) :
  Permutation a (insertion_sort v a)
  /\ StronglySorted (ascending v) (insertion_sort v a).
Proof.
  unfold insertion_sort.
  assert (H : forall acc, StronglySorted (descending v) acc ->
            Permutation (a ++ acc)
                        (fold_left (fun sorted x => shift v x sorted) a acc)
            /\ StronglySorted (descending v)
                 (fold_left (fun sorted x => shift v x sorted) a acc)).
  { induction a as [|x a IH]; intros acc Hacc; cbn [fold_left app];
      [now split|].
    destruct (IH (shift v x acc) (shift_sorted x acc Hacc)) as [P S].
    split; [|exact S].
    rewrite <- P, <- shift_perm. apply Permutation_middle. }
  destruct (H [] (SSorted_nil _)) as [P S]. rewrite app_nil_r in P. split.
  - rewrite P at 1. apply Permutation_rev.
  - apply (StronglySorted_rev_flip (descending v)). exact S.
Qed.

(** With [aheapsort] a sort, so is the routine. *)
Section QuicksortSorts.
Context (aheapsort : list A -> list A).
Hypothesis aheapsort_sorts :
  forall a, Permutation a (aheapsort a)
            /\ StronglySorted (ascending v) (aheapsort a).

Lemma aquicksort_from_spec (fuel : nat) :
  forall (popped : bool) (cdepth : Z) (a : list A),
    (List.length a < fuel)%nat ->
    Permutation a (aquicksort_from v aheapsort fuel popped cdepth a)
    /\ StronglySorted (ascending v)
         (aquicksort_from v aheapsort fuel popped cdepth a).
Proof.
  induction fuel as [|fuel IH]; intros popped cdepth a Hfuel; [lia|].
  cbn [aquicksort_from].
  destruct (popped && (cdepth <? 0)); [apply aheapsort_sorts|].
  destruct (Nat.ltb_spec SMALL_QUICKSORT (List.length a - 1)) as [Hbig|_];
    [|apply insertion_sort_spec].
  destruct (partition v a) as [a' pi] eqn:Ep.
  destruct (partition_spec a a' pi) as (P & p & Eat & Low & High);
    [unfold SMALL_QUICKSORT in Hbig; lia | exact Ep|].
  destruct (nth_error_split a' pi Eat) as (l1 & l2 & Ea' & Hl1).
  assert (F : firstn pi a' = l1).
  { rewrite Ea', <- Hl1, firstn_app, Nat.sub_diag, firstn_all. cbn.
    apply app_nil_r. }
  assert (K : skipn pi a' = p :: l2).
  { rewrite Ea', <- Hl1. rewrite skipn_app, skipn_all, Nat.sub_diag.
    reflexivity. }
  assert (K' : skipn (S pi) a' = l2).
  { replace (S pi) with (1 + pi)%nat by lia.
    rewrite <- skipn_skipn, K. reflexivity. }
  rewrite F, K, K'. cbn [firstn app].
  assert (Hlen : List.length a = S (List.length l1 + List.length l2)).
  { rewrite (Permutation_length P), Ea', length_app. cbn [List.length]. lia. }
  destruct (IH (negb (pi <? List.length a - 1 - pi)%nat) (cdepth - 1) l1)
    as [Pl Sl]; [lia|].
  destruct (IH (pi <? List.length a - 1 - pi)%nat (cdepth - 1) l2)
    as [Pr Sr]; [lia|].
  set (l := aquicksort_from v aheapsort fuel _ (cdepth - 1) l1) in *.
  set (r := aquicksort_from v aheapsort fuel _ (cdepth - 1) l2) in *.
  assert (Hl : forall x, In x l -> v x <= v p).
  { intros x Hx. apply (Permutation_in _ (Permutation_sym Pl)) in Hx.
    apply In_nth_error in Hx as [i Ei].
    assert ((i < List.length l1)%nat) by (apply nth_error_Some; congruence).
    apply (Low i); [lia|]. rewrite Ea', nth_error_app1 by lia. exact Ei. }
  assert (Hr : forall x, In x r -> v p <= v x).
  { intros x Hx. apply (Permutation_in _ (Permutation_sym Pr)) in Hx.
    apply In_nth_error in Hx as [i Ei].
    apply (High (S pi + i)%nat); [lia|].
    rewrite Ea', nth_error_app2 by lia.
    replace (S pi + i - List.length l1)%nat with (S i) by lia. exact Ei. }
  split.
  - rewrite P, Ea'. apply Permutation_app; [exact Pl|].
    now apply perm_skip.
  - apply StronglySorted_app_intro; [exact Sl | |].
    + constructor; [exact Sr|]. apply Forall_forall. exact Hr.
    + intros x y Hx [<-|Hy]; [now apply Hl|].
      unfold ascending. specialize (Hl x Hx). specialize (Hr y Hy). lia.
Qed.

Lemma aquicksort_spec (a : list A) :
  Permutation a (aquicksort v aheapsort a)
  /\ StronglySorted (ascending v) (aquicksort v aheapsort a).
Proof. apply aquicksort_from_spec. lia. Qed.

End QuicksortSorts.

(** A part of at most 17 elements is sorted by insertion alone. *)
Lemma aquicksort_small (aheapsort : list A -> list A) (a : list A) :
  (List.length a <= 17)%nat ->
  aquicksort v aheapsort a = insertion_sort v a.
Proof.
  intro Hlen. unfold aquicksort. cbn [aquicksort_from].
  replace (2 * Z.log2 (Z.of_nat (List.length a)) <? 0) with false
    by (symmetry; apply Z.ltb_ge; pose proof (Z.log2_nonneg
          (Z.of_nat (List.length a))); lia).
  cbn [andb].
  destruct (Nat.ltb_spec SMALL_QUICKSORT (List.length a - 1)) as [Hbig|_];
    [unfold SMALL_QUICKSORT in Hbig; lia | reflexivity].
Qed.

End ArgSortFacts.

(** Line 144: the result is an arrangement of the rows with the counts
    descending. *)
Lemma sort_values_allowed
    (aheapsort : list (string * Z) -> list (string * Z))
    (rows : list (string * Z)) :
  (forall a, Permutation a (aheapsort a)
             /\ StronglySorted (ascending snd) (aheapsort a)) ->
  sort_values_desc rows (sort_values aheapsort rows).
Proof.
  intro Hheap. unfold sort_values.
  destruct (aquicksort_spec snd aheapsort Hheap (rev rows)) as [P S]. split.
  - apply (Permutation_trans (Permutation_rev rows)).
    apply (Permutation_trans P). apply Permutation_rev.
  - exact (StronglySorted_rev_flip (ascending snd) _ S).
Qed.

(** On the reversed column the insertion sort of numpy is the insertion
    sort that keeps rows of equal count in the order they come in. *)
Lemma shift_insert_desc (x : string * Z) (l : list (string * Z)) :
  shift snd x l = insert_desc true x l.
Proof.
  induction l as [|y l IH]; cbn [shift insert_desc]; [reflexivity|].
  destruct (Z.ltb_spec (snd x) (snd y)), (Z.leb_spec (snd y) (snd x));
    try lia; [now rewrite IH | reflexivity].
Qed.

Lemma sort_values_small
    (aheapsort : list (string * Z) -> list (string * Z))
    (rows : list (string * Z)) :
  (List.length rows <= 17)%nat ->
  sort_values aheapsort rows = sort_desc true rows.
Proof.
  intro Hlen. unfold sort_values.
  rewrite aquicksort_small by (now rewrite length_rev).
  unfold insertion_sort, sort_desc.
  rewrite rev_involutive.
  change (fold_left (fun sorted x => shift snd x sorted) (rev rows) [])
    with (fold_left (fun sorted x => (fun a b => shift snd a b) x sorted)
                    (rev rows) []).
  rewrite <- fold_left_rev_right, rev_involutive.
  induction rows as [|x rows IH]; cbn [fold_right]; [reflexivity|].
  rewrite IH by (cbn [List.length] in Hlen; lia).
  apply shift_insert_desc.
Qed.

(** Rows that come in name order leave that sort ranked by count and then
    by name. *)
Lemma insert_desc_by_name (x : string * Z) (l : list (string * Z)) :
  StronglySorted count_then_name l -> Forall (key_lt x) l ->
  StronglySorted count_then_name (insert_desc true x l).
Proof.
  induction 1 as [|y l Hs IH Hall]; intro Hx; cbn [insert_desc];
    [repeat constructor|].
  inversion Hx as [|? ? Hxy Hxl]; subst.
  destruct (Z.leb_spec (snd y) (snd x)) as [Hle|Hgt].
  - constructor; [now constructor|].
    constructor.
    + destruct (Z.eq_dec (snd y) (snd x)) as [E|Hne];
        [right; now split | left; lia].
    + rewrite Forall_forall in *. intros z Hz.
      assert (Hzy : snd z <= snd y)
        by (destruct (Hall z Hz) as [H|[H _]]; lia).
      destruct (Z.eq_dec (snd z) (snd x)) as [E|Hne];
        [right; split; [exact E | now apply Hxl] | left; lia].
  - constructor; [now apply IH|].
    rewrite <- insert_desc_perm.
    constructor; [left; lia | exact Hall].
Qed.

Lemma sort_desc_by_name (rows : list (string * Z)) :
  StronglySorted key_lt rows ->
  StronglySorted count_then_name (sort_desc true rows).
Proof.
  induction 1 as [|x rows Hs IH Hall]; cbn [sort_desc fold_right];
    [constructor|].
  apply insert_desc_by_name; [exact IH|].
  fold (sort_desc true rows). now rewrite <- sort_desc_perm.
Qed.

Lemma head_sorted {B : Type} (R : B -> B -> Prop) (n : nat) (l : list B) :
  StronglySorted R l -> StronglySorted R (head n l).
Proof.
  intro H. unfold head. apply (StronglySorted_app_l R _ (skipn n l)).
  now rewrite firstn_skipn.
Qed.

(** What every result of sorting and taking the first [n] rows has. *)
Lemma head_of_sorted (n : nat) (rows sorted : list (string * Z)) :
  sort_values_desc rows sorted ->
  (List.length (head n sorted) <= n)%nat
  /\ StronglySorted count_ge (head n sorted)
  /\ incl (head n sorted) rows
  /\ exists rest,
       Permutation rows (head n sorted ++ rest)
       /\ (forall a b, In a (head n sorted) -> In b rest -> snd b <= snd a)
       /\ ((List.length rows <= n)%nat -> rest = []).
Proof.
  intros [Hperm Hsorted]. unfold head.
  pose proof (firstn_skipn n sorted) as Hsplit.
  split; [apply firstn_le_length|].
  split; [apply (StronglySorted_app_l _ _ (skipn n sorted));
          now rewrite Hsplit|].
  split.
  - intros a Ha. apply (Permutation_in _ (Permutation_sym Hperm)).
    rewrite <- Hsplit. apply in_or_app. now left.
  - exists (skipn n sorted). split; [now rewrite Hsplit|]. split.
    + intros a b Ha Hb.
      apply (StronglySorted_app_cross count_ge (firstn n sorted)
               (skipn n sorted)); [now rewrite Hsplit | exact Ha | exact Hb].
    + intro Hlen. apply skipn_all2.
      now rewrite <- (Permutation_length Hperm).
Qed.

(** The join pairs a trip with the zones of its pickup location id. *)
Lemma merge_In (fdf : list Row) (zones : list ZoneRow) (t : Row) (z : ZoneRow) :
  In (t, z) (merge fdf zones) <->
  In t fdf /\ In z zones /\ PULocationID t = Some (LocationID z).
Proof.
  unfold merge. rewrite in_flat_map. split.
  - intros (l & Hl & Hp). apply in_map_iff in Hp as (z' & E & Hz).
    injection E as -> ->. apply filter_In in Hz as [Hz Hk].
    unfold key_matches, cmp_opt in Hk.
    destruct (PULocationID t) as [pu|]; [|discriminate].
    apply Z.eqb_eq in Hk. subst. auto.
  - intros (Ht & Hz & E). exists t. split; [exact Ht|].
    apply in_map, filter_In. split; [exact Hz|].
    unfold key_matches. rewrite E. cbn. apply Z.eqb_refl.
Qed.

Lemma merge_app (l1 l2 : list Row) (zones : list ZoneRow) :
  merge (l1 ++ l2) zones = (merge l1 zones ++ merge l2 zones)%list.
Proof. unfold merge. apply flat_map_app. Qed.

Lemma merge_unmatched (t : Row) (zones : list ZoneRow) :
  (forall z, In z zones -> PULocationID t <> Some (LocationID z)) ->
  merge [t] zones = [].
Proof.
  intro H. unfold merge. cbn [flat_map]. rewrite app_nil_r.
  replace (filter (key_matches t) zones) with (@nil ZoneRow); [reflexivity|].
  symmetry. induction zones as [|z zones IH]; [reflexivity|].
  cbn [filter]. rewrite <- IH by (intros z' Hz'; apply H; now right).
  unfold key_matches, cmp_opt.
  destruct (PULocationID t) as [pu|] eqn:E; [|reflexivity].
  destruct (Z.eqb_spec pu (LocationID z)) as [->|_]; [|reflexivity].
  exfalso. now apply (H z (or_introl eq_refl)).
Qed.

(* ------------------------------------------------------------------ *)
(** ** Top pickup zones: the example of the specification *)

Example abc_zone_counts :
  zone_counts abc_trips abc_zones = [("A", 5); ("B", 3); ("C", 3)].
Proof. vm_compute. reflexivity. Qed.

Lemma top_n_zones_exists (n : nat) (fdf : list Row) (zones : list ZoneRow) :
  top_n_zones n fdf zones (head n (sort_desc true (zone_counts fdf zones))).
Proof.
  exists (sort_desc true (zone_counts fdf zones)).
  split; [apply sort_desc_allowed | reflexivity].
Qed.

Example abc_sort_values (aheapsort : list (string * Z) -> list (string * Z)) :
  sort_values aheapsort [("A", 5); ("B", 3); ("C", 3)]
  = [("A", 5); ("B", 3); ("C", 3)].
Proof. vm_compute. reflexivity. Qed.

Example zone_counts18 :
  zone_counts trips18 zones18
  = [ ("A", 1); ("B", 1); ("C", 1); ("D", 1); ("E", 1); ("F", 1); ("G", 1);
      ("H", 1); ("I", 1); ("J", 1); ("K", 1); ("L", 1); ("M", 1); ("N", 1);
      ("O", 1); ("P", 1); ("Q", 1); ("R", 1) ].
Proof. vm_compute. reflexivity. Qed.




(* ------------------------------------------------------------------ *)
(** ** Trips without a zone *)

Lemma sum_counts_cons (x : string * Z) (l : list (string * Z)) :
  sum_counts (x :: l) = snd x + sum_counts l.
Proof. reflexivity. Qed.

Lemma sum_counts_bump (k : string) (acc : list (string * Z)) :
  sum_counts (bump k acc) = sum_counts acc + 1.
Proof.
  induction acc as [|[k0 n] rest IH]; cbn [bump]; [reflexivity|].
  destruct (String.compare k k0); rewrite !sum_counts_cons; cbn [snd];
    rewrite ?IH; cbn [sum_counts fold_right]; lia.
Qed.

Lemma sum_counts_groupby (keys : list (option string)) :
  sum_counts (groupby_size keys)
  = Z.of_nat (List.length (filter notna_key keys)).
Proof.
  unfold groupby_size.
  enough (H : forall acc,
             sum_counts
               (fold_left (fun acc o => match o with
                                        | Some x => bump x acc
                                        | None => acc
                                        end) keys acc)
             = sum_counts acc + Z.of_nat (List.length (filter notna_key keys)))
    by (rewrite H; reflexivity).
  induction keys as [|[x|] keys IH]; intro acc; cbn [fold_left filter].
  - cbn. lia.
  - rewrite IH, sum_counts_bump. cbn [notna_key isna_opt negb List.length]. lia.
  - rewrite IH. reflexivity.
Qed.

Lemma sum_counts_perm (l l' : list (string * Z)) :
  Permutation l l' -> sum_counts l = sum_counts l'.
Proof.
  induction 1 as [|x l l' _ IH|x y l|l l' l'' _ IH1 _ IH2];
    rewrite ?sum_counts_cons; [reflexivity | now rewrite IH | lia | congruence].
Qed.

Lemma sum_counts_app (l1 l2 : list (string * Z)) :
  sum_counts (l1 ++ l2) = sum_counts l1 + sum_counts l2.
Proof.
  induction l1 as [|x l1 IH]; cbn [app]; [reflexivity|].
  rewrite !sum_counts_cons, IH. lia.
Qed.

Lemma sum_counts_nonneg (l : list (string * Z)) :
  Forall (fun p => 1 <= snd p) l -> 0 <= sum_counts l.
Proof.
  induction 1 as [|x l Hx _ IH]; [reflexivity|].
  rewrite sum_counts_cons. lia.
Qed.

(** A trip is joined to at most one zone when location ids are unique. *)
Lemma matches_at_most_one (t : Row) (zones : list ZoneRow) :
  NoDup (map LocationID zones) ->
  (List.length (filter (key_matches t) zones) <= 1)%nat.
Proof.
  induction zones as [|z zones IH]; cbn [map filter]; intro Hnd; [cbn; lia|].
  inversion Hnd as [|? ? Hnotin Hnd']; subst.
  destruct (key_matches t z) eqn:E; [|now apply IH].
  replace (filter (key_matches t) zones) with (@nil ZoneRow); [cbn; lia|].
  symmetry. clear IH Hnd Hnd'. induction zones as [|z' zones IH]; [reflexivity|].
  cbn [filter]. cbn [map In] in Hnotin.
  rewrite <- IH by tauto.
  unfold key_matches, cmp_opt in *.
  destruct (PULocationID t) as [pu|]; [|discriminate].
  apply Z.eqb_eq in E.
  destruct (Z.eqb_spec pu (LocationID z')); [exfalso; intuition congruence|].
  reflexivity.
Qed.

Lemma merge_length (fdf : list Row) (zones : list ZoneRow) :
  NoDup (map LocationID zones) ->
  (List.length (merge fdf zones) <= List.length fdf)%nat.
Proof.
  intro Hnd. unfold merge.
  induction fdf as [|t fdf IH]; cbn [flat_map List.length]; [lia|].
  rewrite length_app, length_map.
  pose proof (matches_at_most_one t zones Hnd). lia.
Qed.

Lemma zone_counts_total (fdf : list Row) (zones : list ZoneRow) :
  NoDup (map LocationID zones) ->
  sum_counts (zone_counts fdf zones) <= Z.of_nat (List.length fdf).
Proof.
  intro Hnd. unfold zone_counts. rewrite sum_counts_groupby.
  pose proof (filter_length_le notna_key
                (map (fun p => Zone (snd p)) (merge fdf zones))) as H1.
  rewrite length_map in H1.
  pose proof (merge_length fdf zones Hnd). lia.
Qed.

Example unmatched_trip_counts :
  zone_counts [trip_from 1; trip_from 9; trip_from 2] abc_zones
  = [("A", 1); ("B", 1)].
Proof. vm_compute. reflexivity. Qed.

(** With unique location ids a trip is joined to the one zone of its pickup
    location id, so the trips are counted under [joined_zone]. *)
Lemma matches_cases (t : Row) (zones : list ZoneRow) :
  NoDup (map LocationID zones) ->
  filter (key_matches t) zones = []
  \/ exists z, filter (key_matches t) zones = [z].
Proof.
  intro Hnd. pose proof (matches_at_most_one t zones Hnd) as Hlen.
  destruct (filter (key_matches t) zones) as [|z [|z' l]];
    [now left | right; now exists z | cbn in Hlen; lia].
Qed.

Lemma zone_counts_joined (fdf : list Row) (zones : list ZoneRow) :
  NoDup (map LocationID zones) ->
  zone_counts fdf zones = groupby_size (map (joined_zone zones) fdf).
Proof.
  intro Hnd. unfold zone_counts, groupby_size. generalize (@nil (string * Z)).
  induction fdf as [|t fdf IH]; intro acc; [reflexivity|].
  unfold merge in *. cbn [flat_map map].
  rewrite !map_app, fold_left_app, IH. cbn [fold_left]. f_equal.
  unfold joined_zone.
  destruct (matches_cases t zones Hnd) as [-> | [z ->]]; reflexivity.
Qed.

Lemma counted_length (zones : list ZoneRow) (fdf : list Row) :
  List.length (filter notna_key (map (joined_zone zones) fdf))
  = List.length (filter (counted zones) fdf).
Proof.
  induction fdf as [|t fdf IH]; [reflexivity|].
  cbn [map filter]. unfold counted at 1.
  destruct (notna_key (joined_zone zones t)); cbn [List.length]; now rewrite IH.
Qed.

Lemma unmatched_not_counted (t : Row) (zones : list ZoneRow) :
  (forall z, In z zones -> PULocationID t <> Some (LocationID z)) ->
  counted zones t = false.
Proof.
  intro Hun. unfold counted, joined_zone.
  pose proof (merge_unmatched t zones Hun) as E.
  unfold merge in E. cbn [flat_map] in E. rewrite app_nil_r in E.
  destruct (filter (key_matches t) zones); [reflexivity | discriminate].
Qed.

(** C10. The join is an inner join. The joined frame holds exactly the
    pairs of a filtered trip and a zone row with the trip's pickup location
    id, and each zone name is reported with the number of joined pairs of
    that name. A trip whose pickup location id is no location id of the
    lookup is in no pair: the joined frame, the zone counts and the top
    zones are those of the view without it. With unique location ids every
    other trip is counted once, under the name of its zone, so the counts
    add up to the number of trips that have a named zone, and the counts of
    the reported zones to less than the number of filtered trips. *)
Theorem merge_drops_unmatched (before after : list Row) (t : Row)
    (zones : list ZoneRow) :
  (forall z, In z zones -> PULocationID t <> Some (LocationID z)) ->
  (forall t' z, In (t', z) (merge (before ++ t :: after) zones) <->
     In t' (before ++ t :: after) /\ In z zones
     /\ PULocationID t' = Some (LocationID z))
  /\ (forall name n, In (name, n) (zone_counts (before ++ t :: after) zones) <->
        n = count_key name (map (fun p => Zone (snd p))
                                (merge (before ++ t :: after) zones))
        /\ 0 < n)
  /\ (forall z, ~ In (t, z) (merge (before ++ t :: after) zones))
  /\ merge (before ++ t :: after) zones = merge (before ++ after) zones
  /\ zone_counts (before ++ t :: after) zones
     = zone_counts (before ++ after) zones
  /\ (forall out, top_zones (before ++ t :: after) zones out
                  <-> top_zones (before ++ after) zones out)
  /\ (NoDup (map LocationID zones) ->
      zone_counts (before ++ t :: after) zones
      = groupby_size (map (joined_zone zones) (before ++ t :: after))
      /\ sum_counts (zone_counts (before ++ t :: after) zones)
         = Z.of_nat (List.length (filter (counted zones) (before ++ after)))
      /\ forall out, top_zones (before ++ t :: after) zones out ->
           sum_counts out < Z.of_nat (List.length (before ++ t :: after))).
Proof.
  intro Hun.
  assert (Hm : merge (before ++ t :: after) zones
               = merge (before ++ after) zones).
  { change (t :: after) with ([t] ++ after)%list.
    rewrite !merge_app, (merge_unmatched t zones Hun). reflexivity. }
  assert (Hc : zone_counts (before ++ t :: after) zones
               = zone_counts (before ++ after) zones)
    by (unfold zone_counts; now rewrite Hm).
  split; [intros t' z; apply merge_In|].
  split; [intros name n; apply groupby_size_spec|].
  split; [intros z Hin; apply merge_In in Hin as (_ & Hz & E);
          exact (Hun z Hz E)|].
  split; [exact Hm|]. split; [exact Hc|]. split.
  - intro out. unfold top_zones, top_n_zones. now rewrite Hc.
  - intro Hnd. split; [now apply zone_counts_joined|]. split.
    + rewrite Hc, (zone_counts_joined _ _ Hnd), sum_counts_groupby.
      now rewrite counted_length.
    + intros out (sorted & Hs & ->).
      destruct (head_of_sorted 10 _ _ Hs) as (_ & _ & _ & rest & Hp & _ & _).
      pose proof (sum_counts_perm _ _ Hp) as Hsum.
      rewrite sum_counts_app in Hsum.
      assert (Hrest : Forall (fun p => 1 <= snd p) rest).
      { pose proof (groupby_size_positive
                      (map (fun p => Zone (snd p))
                           (merge (before ++ t :: after) zones))) as Hpos.
        fold (zone_counts (before ++ t :: after) zones) in Hpos.
        rewrite Hp in Hpos. apply Forall_app in Hpos. tauto. }
      apply sum_counts_nonneg in Hrest.
      pose proof (zone_counts_total (before ++ after) zones Hnd) as Htot.
      rewrite <- Hc in Htot.
      rewrite !length_app in *. cbn [List.length]. lia.
Qed.

Lemma merge_drops_unmatched_witness :
  zone_counts ([trip_from 1] ++ trip_from 9 :: [trip_from 2]) abc_zones
  = zone_counts ([trip_from 1] ++ [trip_from 2]) abc_zones.
Proof.
  refine (proj1 (proj2 (proj2 (proj2 (proj2
            (merge_drops_unmatched [trip_from 1] [trip_from 2] (trip_from 9)
               abc_zones _)))))).
  intros z [<-|[<-|[<-|[]]]]; discriminate.
Defined.

(* ------------------------------------------------------------------ *)
(** ** More on the cleaning pass *)

Lemma filter_filter_andb {A : Type} (p q : A -> bool) (l : list A) :
  filter q (filter p l) = filter (fun x => p x && q x) l.
Proof.
  induction l as [|x l IH]; cbn; [reflexivity|].
  destruct (p x); cbn; [destruct (q x)|]; now rewrite IH.
Qed.

Lemma clean_rows_keeps_all (df : list RawTrip) :
  clean_rows df = filter keeps_all df.
Proof.
  rewrite clean_rows_filters, !filter_filter_andb.
  apply filter_ext. intro r. unfold keeps_all. now rewrite !andb_assoc.
Qed.

Lemma cleaned_ok_keeps_all (r : RawTrip) :
  cleaned_ok (derive r) -> keeps_all r = true.
Proof.
  unfold cleaned_ok, required_present. cbn [raw derive].
  intros ((Hp & Hd & Hpu & Hdo & Hnan) & Hdist & Hf0 & Hf1
          & p & d & Ep & Ed & Hlt & Hwin).
  unfold keeps_all, keeps_present, has_na_required, keeps_distance,
    keeps_fare_pos, keeps_fare_max, keeps_order, keeps_window, F64.gt, F64.le.
  rewrite Ep, Ed, Hnan, Hdist, Hf0, Hf1.
  destruct (PULocationID r); [|congruence].
  destruct (DOLocationID r); [|congruence].
  change (Time.Timestamp 2024 1 1) with 1704067200000000 in Hwin.
  change (Time.Timestamp 2024 2 1) with 1706745600000000 in Hwin.
  cbn. rewrite !andb_true_iff. repeat split; lia.
Qed.

(** X1. The cleaning pass keeps every sound row: a row is in the cleaned
    snapshot iff it is the derived form of a raw row that has its required
    fields, a distance above 0, a fare above 0 and at most 500, a dropoff
    after the pickup and a pickup in January 2024. *)
Theorem clean_keeps_exactly_sound_rows (df : list RawTrip) (t : Trip) :
  In t (clean df) <->
  exists r, In r df /\ t = derive r /\ cleaned_ok (derive r).
Proof.
  unfold clean. rewrite in_map_iff. split.
  - intros (r & <- & Hr). exists r.
    split; [now apply clean_rows_In in Hr|].
    split; [reflexivity | exact (clean_rows_ok df r Hr)].
  - intros (r & Hin & -> & Hok). exists r. split; [reflexivity|].
    rewrite clean_rows_keeps_all. apply filter_In.
    split; [exact Hin | exact (cleaned_ok_keeps_all r Hok)].
Qed.

(** X2. The six filters of the cleaning pass, applied one frame after the
    other, keep what one pass with the conjunction of the six tests keeps,
    and cleaning cleaned rows again removes nothing. *)
Theorem clean_rows_one_pass (df : list RawTrip) :
  clean_rows df = filter keeps_all df
  /\ clean_rows (clean_rows df) = clean_rows df.
Proof.
  split; [apply clean_rows_keeps_all|].
  rewrite !clean_rows_keeps_all. apply filter_idem.
Qed.

(** X3. Cleaning works row by row: the cleaned form of two extracts put end
    to end is the two cleaned forms put end to end, and the raw columns of
    a kept row are the raw row's. *)
Theorem clean_app (df1 df2 : list RawTrip) :
  clean (df1 ++ df2) = (clean df1 ++ clean df2)%list
  /\ map raw (clean (df1 ++ df2)) = clean_rows (df1 ++ df2).
Proof.
  unfold clean. rewrite !clean_rows_keeps_all, filter_app, map_app.
  split; [reflexivity|].
  rewrite <- map_app, map_map. cbn [raw derive]. apply map_id.
Qed.

(* ------------------------------------------------------------------ *)
(** ** More on [load_data] *)

(** X4. Whatever files are there, after [load_data] the zone table and the
    snapshot are both on disk and are the two tables returned; a zone file
    or a snapshot that was already there is returned as it is (the remote
    source is not consulted for it), and with a snapshot there the raw
    extract is not written. *)
Theorem load_data_files (net : Remote) (fs : Files) :
  let '(df, zones, fs') := load_data net fs in
  zone_csv fs' = Some zones
  /\ cleaned_parquet fs' = Some df
  /\ zones = match zone_csv fs with
             | Some z => z
             | None => remote_zones net
             end
  /\ df = match cleaned_parquet fs with
          | Some snapshot => snapshot
          | None => clean (remote_trips net)
          end
  /\ (cleaned_parquet fs <> None -> raw_parquet fs' = raw_parquet fs).
Proof.
  unfold load_data.
  destruct (zone_csv fs) as [z|] eqn:Ez,
           (cleaned_parquet fs) as [s|] eqn:Es;
    cbn; rewrite ?Ez, ?Es; cbn; repeat split; congruence.
Qed.

(** X5. A second [load_data] returns what the first one returned and leaves
    the files as they are, whatever the remote sources hold by then. *)
Theorem load_data_second_call (net net' : Remote) (fs : Files) :
  load_data net' (snd (load_data net fs))
  = (fst (load_data net fs), snd (load_data net fs)).
Proof.
  pose proof (load_data_again net net' fs) as H.
  destruct (load_data net fs) as [[df zones] fs']. exact H.
Qed.

(* ------------------------------------------------------------------ *)
(** ** The derived columns of the dashboard's frame *)

Lemma dashboard_row_ok (raw_df : list RawTrip) (r : Row) :
  In r (add_payment_label (clean raw_df)) ->
  cleaned_ok r
  /\ pickup_hour r = Time.dt_hour (tpep_pickup_datetime r)
  /\ pickup_day_of_week r = Time.dt_day_name (tpep_pickup_datetime r)
  /\ payment_label r = label_of (payment_type r).
Proof.
  unfold add_payment_label, clean. intro H.
  apply in_map_iff in H as (t & <- & Ht).
  apply in_map_iff in Ht as (x & <- & Hx).
  split; [exact (clean_rows_ok raw_df x Hx) | repeat split].
Qed.

Lemma sample_first_In : In sample_first sample_df.
Proof. left. reflexivity. Qed.

Lemma hour_of_day_bounds (p : Z) :
  0 <= (p mod Time.us_per_day) / Time.us_per_hour <= 23.
Proof.
  change Time.us_per_day with (24 * 3600000000).
  change Time.us_per_hour with 3600000000.
  pose proof (Z.mod_pos_bound p (24 * 3600000000) eq_refl) as Hm.
  split.
  - apply Z.div_pos; lia.
  - enough ((p mod (24 * 3600000000)) / 3600000000 < 24) by lia.
    apply Z.div_lt_upper_bound; lia.
Qed.

Lemma january_day (dom : Z) : Time.days_from_civil 2024 1 dom = 19722 + dom.
Proof.
  unfold Time.days_from_civil.
  change (1 <=? 2) with true. cbv iota.
  change ((2024 - 1) / 400) with 5.
  change ((1 + 9) mod 12) with 10.
  change ((153 * 10 + 2) / 5) with 306.
  change (2024 - 1 - 5 * 400) with 23.
  change (23 / 4) with 5. change (23 / 100) with 0. lia.
Qed.

Lemma january_date (p : Z) :
  Time.Timestamp 2024 1 1 <= p < Time.Timestamp 2024 2 1 ->
  exists dom, 1 <= dom <= 31
              /\ p / Time.us_per_day = Time.days_from_civil 2024 1 dom.
Proof.
  change (Time.Timestamp 2024 1 1) with (19723 * 86400000000).
  change (Time.Timestamp 2024 2 1) with (19754 * 86400000000).
  change Time.us_per_day with 86400000000.
  intros [Hlo Hhi]. exists (p / 86400000000 - 19722).
  rewrite january_day.
  assert (19723 <= p / 86400000000)
    by (apply Z.div_le_lower_bound; lia).
  assert (p / 86400000000 < 19754)
    by (apply Z.div_lt_upper_bound; lia).
  lia.
Qed.

(** X6. Every row of the dashboard's frame has a pickup hour, it is between
    0 and 23, and it is the hour of the day the pickup time falls in. *)
Theorem dashboard_pickup_hour (raw_df : list RawTrip) (r : Row) :
  In r (add_payment_label (clean raw_df)) ->
  exists p h,
    tpep_pickup_datetime r = Some p /\ pickup_hour r = Some h
    /\ 0 <= h <= 23
    /\ h * Time.us_per_hour <= p mod Time.us_per_day
       < (h + 1) * Time.us_per_hour.
Proof.
  intro Hin.
  destruct (dashboard_row_ok raw_df r Hin)
    as ((_ & _ & _ & _ & p & d & Ep & _) & Eh & _).
  exists p, ((p mod Time.us_per_day) / Time.us_per_hour).
  rewrite Eh, Ep. split; [reflexivity|]. split; [reflexivity|].
  split; [apply hour_of_day_bounds|].
  change Time.us_per_hour with 3600000000.
  pose proof (Z.div_mod (p mod Time.us_per_day) 3600000000 ltac:(lia)) as Hd.
  pose proof (Z.mod_pos_bound (p mod Time.us_per_day) 3600000000 eq_refl).
  lia.
Qed.

Lemma dashboard_pickup_hour_witness :
  exists p h,
    tpep_pickup_datetime sample_first = Some p
    /\ pickup_hour sample_first = Some h
    /\ 0 <= h <= 23
    /\ h * Time.us_per_hour <= p mod Time.us_per_day
       < (h + 1) * Time.us_per_hour.
Proof.
  apply (dashboard_pickup_hour sample_raw sample_first).
  left. reflexivity.
Defined.

(** X7. Every row of the dashboard's frame has its pickup on a day of
    January 2024, and its day of week is the name that day has: the 1st is
    a Monday and the names go round from there. *)
Theorem dashboard_pickup_day (raw_df : list RawTrip) (r : Row) :
  In r (add_payment_label (clean raw_df)) ->
  exists dom,
    1 <= dom <= 31
    /\ Time.dt_date (tpep_pickup_datetime r)
       = Some (Time.days_from_civil 2024 1 dom)
    /\ pickup_day_of_week r
       = Some (nth (Z.to_nat ((dom - 1) mod 7)) Time.day_names "")
    /\ (exists name, pickup_day_of_week r = Some name
                     /\ In name Time.day_names).
Proof.
  intro Hin.
  destruct (dashboard_row_ok raw_df r Hin)
    as ((_ & _ & _ & _ & p & d & Ep & _ & _ & Hwin) & _ & Ed & _).
  destruct (january_date p Hwin) as (dom & Hdom & Edate).
  exists dom. rewrite Ed, Ep. cbn [Time.dt_date Time.dt_day_name option_map].
  rewrite Edate, january_day.
  replace ((19722 + dom + 3) mod 7) with ((dom - 1) mod 7)
    by (replace (19722 + dom + 3) with (dom - 1 + 2818 * 7) by lia;
        now rewrite Z.mod_add).
  split; [exact Hdom|]. split; [reflexivity|]. split; [reflexivity|].
  eexists. split; [reflexivity|].
  apply nth_In. cbn [List.length Time.day_names].
  pose proof (Z.mod_pos_bound (dom - 1) 7 eq_refl). lia.
Qed.

Lemma dashboard_pickup_day_witness :
  exists dom,
    1 <= dom <= 31
    /\ Time.dt_date (tpep_pickup_datetime sample_first)
       = Some (Time.days_from_civil 2024 1 dom)
    /\ pickup_day_of_week sample_first
       = Some (nth (Z.to_nat ((dom - 1) mod 7)) Time.day_names "")
    /\ (exists name, pickup_day_of_week sample_first = Some name
                     /\ In name Time.day_names).
Proof.
  apply (dashboard_pickup_day sample_raw sample_first).
  left. reflexivity.
Defined.

(* ------------------------------------------------------------------ *)
(** ** The sidebar's defaults and the first view *)

Section ReduceFacts.
Variable f : Z -> Z -> Z.
Variable R : Z -> Z -> Prop.
Hypothesis f_choice : forall a b, f a b = a \/ f a b = b.
Hypothesis f_l : forall a b, R (f a b) a.
Hypothesis f_r : forall a b, R (f a b) b.
Hypothesis R_refl : forall a, R a a.
Hypothesis R_trans : forall a b c, R a b -> R b c -> R a c.

Lemma reduce_opt_fold (s : list (option Z)) :
  forall acc,
    match fold_left (fun acc v => match acc, v with
                                  | Some a, Some b => Some (f a b)
                                  | None, _ => v
                                  | _, None => acc
                                  end) s acc with
    | None => acc = None /\ forall v, ~ In (Some v) s
    | Some m => (acc = Some m \/ In (Some m) s)
                /\ (forall a, acc = Some a -> R m a)
                /\ (forall v, In (Some v) s -> R m v)
    end.
Proof.
  induction s as [|x s IH]; intro acc; cbn [fold_left].
  - destruct acc as [a|]; [|now split].
    split; [now left|]. split; [|intros v []].
    intros a' E. injection E as <-. apply R_refl.
  - specialize (IH (match acc, x with
                    | Some a, Some b => Some (f a b)
                    | None, _ => x
                    | _, None => acc
                    end)).
    destruct (fold_left _ s _) as [m|].
    + destruct IH as (Hin & Hacc & Hall).
      destruct acc as [a|], x as [b|]; cbn [In]; (split; [|split]).
      * destruct Hin as [E|Hin]; [|now right; right].
        injection E as <-.
        destruct (f_choice a b) as [-> | ->]; [now left | right; now left].
      * intros a' E. injection E as <-.
        exact (R_trans _ _ _ (Hacc _ eq_refl) (f_l a b)).
      * intros v [E|Hv]; [|now apply Hall]. injection E as <-.
        exact (R_trans _ _ _ (Hacc _ eq_refl) (f_r a b)).
      * destruct Hin as [E|Hin]; [now left | now right; right].
      * exact Hacc.
      * intros v [E|Hv]; [discriminate | now apply Hall].
      * destruct Hin as [E|Hin]; [right; left; exact E | now right; right].
      * discriminate.
      * intros v [E|Hv]; [|now apply Hall]. injection E as <-.
        now apply Hacc.
      * destruct Hin as [E|Hin]; [discriminate | now right; right].
      * discriminate.
      * intros v [E|Hv]; [discriminate | now apply Hall].
    + destruct IH as (E & Hall).
      destruct acc as [a|], x as [b|]; try discriminate.
      split; [reflexivity|].
      intros v [Hv|Hv]; [discriminate | now apply (Hall v)].
Qed.

Lemma reduce_opt_spec (s : list (option Z)) :
  match reduce_opt f s with
  | None => forall v, ~ In (Some v) s
  | Some m => In (Some m) s /\ forall v, In (Some v) s -> R m v
  end.
Proof.
  unfold reduce_opt. pose proof (reduce_opt_fold s None) as H.
  destruct (fold_left _ s None) as [m|].
  - destruct H as ([E|Hin] & _ & Hall); [discriminate | now split].
  - tauto.
Qed.

End ReduceFacts.

(** The two tests of [reduce_dates], read on the rows of the frame. *)
Lemma pickup_dates_missing (df : list Row) :
  existsb isna_opt (pickup_dates df) = true
  <-> exists r, In r df /\ tpep_pickup_datetime r = None.
Proof.
  unfold pickup_dates, col. rewrite map_map, existsb_exists. split.
  - intros (v & Hv & Hna). apply in_map_iff in Hv as (r & <- & Hr).
    exists r. split; [exact Hr|].
    destruct (tpep_pickup_datetime r); [discriminate | reflexivity].
  - intros (r & Hr & E). exists (Time.dt_date (tpep_pickup_datetime r)).
    split; [apply in_map_iff; now exists r|]. now rewrite E.
Qed.

Lemma pickup_dates_present (df : list Row) :
  existsb (fun v => negb (isna_opt v)) (pickup_dates df) = true
  <-> exists r p, In r df /\ tpep_pickup_datetime r = Some p.
Proof.
  unfold pickup_dates, col. rewrite map_map, existsb_exists. split.
  - intros (v & Hv & Hna). apply in_map_iff in Hv as (r & <- & Hr).
    destruct (tpep_pickup_datetime r) as [p|] eqn:E; [|discriminate].
    now exists r, p.
  - intros (r & p & Hr & E). exists (Time.dt_date (tpep_pickup_datetime r)).
    split; [apply in_map_iff; now exists r|]. now rewrite E.
Qed.

Lemma reduce_dates_raises (f : Z -> Z -> Z) (df : list Row) :
  reduce_dates f (pickup_dates df) = None
  <-> (exists r, In r df /\ tpep_pickup_datetime r = None)
      /\ (exists r p, In r df /\ tpep_pickup_datetime r = Some p).
Proof.
  rewrite <- pickup_dates_missing, <- pickup_dates_present, <- andb_true_iff.
  unfold reduce_dates.
  destruct (existsb isna_opt (pickup_dates df)
            && existsb (fun v => negb (isna_opt v)) (pickup_dates df));
    split; congruence.
Qed.

Lemma min_date_spec (df : list Row) (m : option Z) :
  min_date df = Some m ->
  match m with
  | None => forall v, ~ In (Some v) (pickup_dates df)
  | Some lo => In (Some lo) (pickup_dates df)
               /\ forall v, In (Some v) (pickup_dates df) -> lo <= v
  end.
Proof.
  unfold min_date, reduce_dates.
  destruct (_ && _); [discriminate|]. intro E. injection E as <-.
  apply (reduce_opt_spec Z.min Z.le); intros; lia.
Qed.

Lemma max_date_spec (df : list Row) (m : option Z) :
  max_date df = Some m ->
  match m with
  | None => forall v, ~ In (Some v) (pickup_dates df)
  | Some hi => In (Some hi) (pickup_dates df)
               /\ forall v, In (Some v) (pickup_dates df) -> v <= hi
  end.
Proof.
  unfold max_date, reduce_dates.
  destruct (_ && _); [discriminate|]. intro E. injection E as <-.
  apply (reduce_opt_spec Z.max (fun a b => b <= a)); intros; lia.
Qed.

Lemma unique_In (x : string) (s : list string) : In x (unique s) <-> In x s.
Proof.
  induction s as [|y s IH]; cbn [unique In]; [tauto|].
  rewrite filter_In, IH, negb_true_iff.
  destruct (String.eqb_spec y x) as [->|Hne]; [tauto|].
  intuition congruence.
Qed.

Lemma unique_NoDup (s : list string) : NoDup (unique s).
Proof.
  induction s as [|y s IH]; cbn [unique]; constructor.
  - rewrite filter_In, String.eqb_refl. cbn. intuition discriminate.
  - now apply NoDup_filter.
Qed.

Lemma filter_all {A : Type} (p : A -> bool) (l : list A) :
  (forall x, In x l -> p x = true) -> filter p l = l.
Proof.
  induction l as [|x l IH]; cbn [filter]; intro H; [reflexivity|].
  rewrite (H x (or_introl eq_refl)), IH; [reflexivity|].
  intros y Hy. apply H. now right.
Qed.

Lemma pickup_dates_In (df : list Row) (r : Row) (p : Z) :
  In r df -> tpep_pickup_datetime r = Some p ->
  In (Some (p / Time.us_per_day)) (pickup_dates df).
Proof.
  intros Hin Ep. unfold pickup_dates, col. rewrite map_map.
  apply in_map_iff. exists r. now rewrite Ep.
Qed.

Lemma default_view_complete (df : list Row) :
  (forall r, In r df ->
     exists p h, tpep_pickup_datetime r = Some p /\ pickup_hour r = Some h
                 /\ 0 <= h <= 23) ->
  df <> [] -> default_view df = Some df.
Proof.
  intros Hrows Hne. unfold default_view.
  destruct df as [|r0 rest]; [congruence|].
  destruct (Hrows r0 (or_introl eq_refl)) as (p0 & h0 & Ep0 & _).
  pose proof (pickup_dates_In (r0 :: rest) r0 p0 (or_introl eq_refl) Ep0) as H0.
  assert (Hfull : forall f, reduce_dates f (pickup_dates (r0 :: rest)) <> None).
  { intros f Hf. apply reduce_dates_raises in Hf as ((r & Hr & E) & _).
    destruct (Hrows r Hr) as (p & _ & Ep & _). congruence. }
  pose proof (min_date_spec (r0 :: rest)) as Hmin.
  pose proof (max_date_spec (r0 :: rest)) as Hmax.
  destruct (min_date (r0 :: rest)) as [[lo|]|] eqn:Elo;
    [| now apply (Hmin None eq_refl) in H0 | now apply Hfull in Elo].
  destruct (max_date (r0 :: rest)) as [[hi|]|] eqn:Ehi;
    [| now apply (Hmax None eq_refl) in H0 | now apply Hfull in Ehi].
  specialize (Hmin _ eq_refl). specialize (Hmax _ eq_refl).
  cbn beta iota in Hmin, Hmax.
  unfold apply_filters, date_bounds. f_equal.
  rewrite filtered_df_filter. apply filter_all. intros r Hr.
  apply passes_spec.
  destruct (Hrows r Hr) as (p & h & Ep & Eh & Hh).
  pose proof (pickup_dates_In _ r p Hr Ep) as Hd.
  split; [|split].
  - exists p. split; [exact Ep|]. split; [now apply Hmin | now apply Hmax].
  - exists h. split; [exact Eh | exact Hh].
  - unfold label_selected, payment_options, col.
    apply unique_In, in_map, Hr.
Qed.

(** X8. On its first run the dashboard shows every trip: with the date
    picker at the earliest and latest pickup date, the hour slider at 0 to
    23 and every payment option selected, the filtered view of a non-empty
    frame is the frame itself. An empty frame gives the date picker no
    bounds. *)
Theorem default_view_shows_all (raw_df : list RawTrip) :
  default_view (add_payment_label (clean raw_df))
  = match add_payment_label (clean raw_df) with
    | [] => None
    | _ :: _ => Some (add_payment_label (clean raw_df))
    end.
Proof.
  destruct (add_payment_label (clean raw_df)) as [|r0 rest] eqn:E;
    [reflexivity|].
  apply default_view_complete; [|discriminate].
  intros r Hr. rewrite <- E in Hr.
  destruct (dashboard_row_ok raw_df r Hr)
    as ((_ & _ & _ & _ & p & d & Ep & _) & Eh & _).
  exists p, ((p mod Time.us_per_day) / Time.us_per_hour).
  rewrite Eh, Ep. repeat split; apply hour_of_day_bounds.
Qed.

Example default_view_sample : default_view sample_df = Some sample_df.
Proof. vm_compute. reflexivity. Qed.

(** X9. Lines 80-81 on any frame. When every row has a pickup time, the
    earliest and the latest pickup date are dates of rows of the frame and
    bound the date of every row. When no row has one (or the frame is
    empty) both are missing. When some rows have a pickup time and others
    do not, both lines raise. *)
Theorem min_max_date_bounds (df : list Row) :
  match min_date df, max_date df with
  | Some (Some lo), Some (Some hi) =>
      In (Some lo) (pickup_dates df) /\ In (Some hi) (pickup_dates df)
      /\ forall r, In r df ->
           exists p, tpep_pickup_datetime r = Some p
                     /\ lo <= p / Time.us_per_day <= hi
  | Some None, Some None => forall r, In r df -> tpep_pickup_datetime r = None
  | None, None =>
      (exists r, In r df /\ tpep_pickup_datetime r = None)
      /\ (exists r p, In r df /\ tpep_pickup_datetime r = Some p)
  | _, _ => False
  end.
Proof.
  pose proof (min_date_spec df) as Hmin.
  pose proof (max_date_spec df) as Hmax.
  pose proof (reduce_dates_raises Z.min df) as Rmin.
  pose proof (reduce_dates_raises Z.max df) as Rmax.
  fold (min_date df) in Rmin. fold (max_date df) in Rmax.
  assert (Hall : forall m, min_date df = Some m ->
            (forall r, In r df -> tpep_pickup_datetime r = None)
            \/ (forall r, In r df -> exists p, tpep_pickup_datetime r = Some p)).
  { intros m Em.
    destruct (existsb isna_opt (pickup_dates df)) eqn:Ena.
    - left. intros r Hr.
      destruct (tpep_pickup_datetime r) as [p|] eqn:Ep; [|reflexivity].
      exfalso. apply pickup_dates_missing in Ena.
      assert (Hraise : min_date df = None)
        by (apply Rmin; split; [exact Ena | now exists r, p]).
      congruence.
    - right. intros r Hr.
      destruct (tpep_pickup_datetime r) as [p|] eqn:Ep; [now exists p|].
      exfalso. apply not_true_iff_false in Ena. apply Ena.
      apply pickup_dates_missing. now exists r. }
  destruct (min_date df) as [[lo|]|], (max_date df) as [[hi|]|].
  - specialize (Hmin _ eq_refl). specialize (Hmax _ eq_refl).
    destruct Hmin as [Hlo Hmin], Hmax as [Hhi Hmax].
    split; [exact Hlo|]. split; [exact Hhi|].
    intros r Hr. destruct (Hall _ eq_refl) as [Hnone|Hsome].
    + exfalso. unfold pickup_dates, col in Hlo. rewrite map_map in Hlo.
      apply in_map_iff in Hlo as (r' & E & Hr').
      rewrite (Hnone r' Hr') in E. discriminate.
    + destruct (Hsome r Hr) as (p & Ep). exists p. split; [exact Ep|].
      pose proof (pickup_dates_In df r p Hr Ep).
      split; [now apply Hmin | now apply Hmax].
  - destruct (Hmin _ eq_refl) as [Hlo _]. exact (Hmax None eq_refl lo Hlo).
  - assert (E : @None (option Z) = None) by reflexivity.
    apply Rmax in E. apply Rmin in E. discriminate.
  - destruct (Hmax _ eq_refl) as [Hhi _]. exact (Hmin None eq_refl hi Hhi).
  - intros r Hr. destruct (tpep_pickup_datetime r) as [p|] eqn:Ep;
      [|reflexivity].
    exfalso. exact (Hmin None eq_refl _ (pickup_dates_In df r p Hr Ep)).
  - assert (E : @None (option Z) = None) by reflexivity.
    apply Rmax in E. apply Rmin in E. discriminate.
  - assert (E : @None (option Z) = None) by reflexivity.
    apply Rmin in E. apply Rmax in E. discriminate.
  - assert (E : @None (option Z) = None) by reflexivity.
    apply Rmin in E. apply Rmax in E. discriminate.
  - now apply Rmin.
Qed.

Example min_date_mixed :
  min_date [sample_row (jan 3 8 0) "Cash"; undated_row] = None
  /\ min_date [sample_row (jan 3 8 0) "Cash"] = Some (Some (day 3))
  /\ min_date [undated_row] = Some None.
Proof. vm_compute. repeat split. Qed.

(** X10. The payment options offered are the labels that occur in the
    frame, each listed once; on the dashboard's frame each is one of the
    five mapped names or Other. *)
Theorem payment_options_labels (raw_df : list RawTrip) (df : list Row) :
  NoDup (payment_options df)
  /\ (forall l, In l (payment_options df)
                <-> exists r, In r df /\ payment_label r = l)
  /\ (forall l, In l (payment_options (add_payment_label (clean raw_df))) ->
        In l ["Credit Card"; "Cash"; "No Charge"; "Dispute"; "Unknown";
              "Other"]).
Proof.
  unfold payment_options, col.
  split; [apply unique_NoDup|]. split.
  - intro l. rewrite unique_In, in_map_iff.
    split; intros (r & H1 & H2); exists r; tauto.
  - intros l Hl. apply unique_In, in_map_iff in Hl as (r & <- & Hr).
    destruct (dashboard_row_ok raw_df r Hr) as (_ & _ & _ & ->).
    rewrite label_of_spec.
    destruct (payment_type r) as [[|[[[]|[]|]|[[]|[]|]|]|]|]; cbn; tauto.
Qed.

(* ------------------------------------------------------------------ *)
(** ** More on the filter *)

Lemma passes_and (s1 e1 s2 e2 : Z) (hr1 hr2 : Z * Z)
    (sel1 sel2 : list string) (r : Row) :
  passes s1 e1 hr1 sel1 r && passes s2 e2 hr2 sel2 r
  = passes (Z.max s1 s2) (Z.min e1 e2)
           (Z.max (fst hr1) (fst hr2), Z.min (snd hr1) (snd hr2))
           (filter (fun l => existsb (String.eqb l) sel2) sel1) r.
Proof.
  apply eq_true_iff_eq.
  rewrite andb_true_iff, !passes_spec.
  unfold in_date_range, in_hour_range, label_selected. cbn [fst snd].
  rewrite filter_In, isin_spec. split.
  - intros (((p & Ep & Hp) & (h & Eh & Hh) & Hl)
            & ((p' & Ep' & Hp') & (h' & Eh' & Hh') & Hl')).
    rewrite Ep in Ep'. injection Ep' as <-.
    rewrite Eh in Eh'. injection Eh' as <-.
    split; [exists p; split; [exact Ep | lia]|].
    split; [exists h; split; [exact Eh | lia]|]. tauto.
  - intros ((p & Ep & Hp) & (h & Eh & Hh) & Hl & Hl').
    split; (split; [exists p; split; [exact Ep | lia]|];
            split; [exists h; split; [exact Eh | lia]|]; assumption).
Qed.

(** X12. A range given the wrong way round selects nothing: with the end
    date before the start date, or the upper hour below the lower one, the
    filtered view is empty. *)
Theorem filtered_df_inverted_range (df : list Row) (start_date end_date : Z)
    (hour_range : Z * Z) (selected_payments : list string) :
  end_date < start_date \/ snd hour_range < fst hour_range ->
  filtered_df df start_date end_date hour_range selected_payments = [].
Proof.
  intro Hinv. rewrite filtered_df_filter.
  induction df as [|r df IH]; [reflexivity|].
  cbn [filter]. rewrite IH.
  destruct (passes start_date end_date hour_range selected_payments r) eqn:E;
    [|reflexivity].
  apply passes_spec in E as ((p & _ & Hp) & (h & _ & Hh) & _). lia.
Qed.

Lemma filtered_df_inverted_range_witness :
  filtered_df sample_rows (day 5) (day 4) (0, 23) ["Cash"] = [].
Proof.
  apply (filtered_df_inverted_range sample_rows (day 5) (day 4) (0, 23)
           ["Cash"]).
  left. reflexivity.
Defined.

(** X13. Filtering a filtered view with a second choice of dates, hours and
    labels is filtering the frame once with the later start date, the
    earlier end date, the inner hour range and the labels selected both
    times. *)
Theorem filtered_df_compose (df : list Row) (s1 e1 s2 e2 : Z)
    (hr1 hr2 : Z * Z) (sel1 sel2 : list string) :
  filtered_df (filtered_df df s1 e1 hr1 sel1) s2 e2 hr2 sel2
  = filtered_df df (Z.max s1 s2) (Z.min e1 e2)
      (Z.max (fst hr1) (fst hr2), Z.min (snd hr1) (snd hr2))
      (filter (fun l => existsb (String.eqb l) sel2) sel1).
Proof.
  rewrite !filtered_df_filter, filter_filter_andb.
  apply filter_ext. intro r. apply passes_and.
Qed.

(** X14. Widening any control never removes a row from the view: an earlier
    start, a later end, a wider hour range or more labels keep every row
    that was shown. *)
Theorem filtered_df_monotone (df : list Row) (s e s' e' : Z)
    (hr hr' : Z * Z) (sel sel' : list string) :
  s' <= s -> e <= e' -> fst hr' <= fst hr -> snd hr <= snd hr' ->
  incl sel sel' ->
  incl (filtered_df df s e hr sel) (filtered_df df s' e' hr' sel').
Proof.
  intros Hs He Hh0 Hh1 Hsel r.
  rewrite !filtered_df_filter, !filter_In, !passes_spec.
  unfold in_date_range, in_hour_range, label_selected.
  intros (Hin & (p & Ep & Hp) & (h & Eh & Hh) & Hl).
  split; [exact Hin|].
  split; [exists p; split; [exact Ep | lia]|].
  split; [exists h; split; [exact Eh | lia] | now apply Hsel].
Qed.

Lemma filtered_df_monotone_witness :
  incl (filtered_df sample_rows (day 4) (day 5) (9, 10) ["Cash"])
       (filtered_df sample_rows (day 3) (day 7) (0, 23) ["Other"; "Cash"]).
Proof.
  apply (filtered_df_monotone sample_rows (day 4) (day 5) (day 3) (day 7)
           (9, 10) (0, 23) ["Cash"] ["Other"; "Cash"]).
  - vm_compute. discriminate.
  - vm_compute. discriminate.
  - vm_compute. discriminate.
  - vm_compute. discriminate.
  - intros l [<-|[]]. right. left. reflexivity.
Defined.

(** X15. The view depends on which labels are selected, not on their order
    or on repetitions: two selections with the same labels give the same
    view. *)
Theorem filtered_df_same_labels (df : list Row) (s e : Z) (hr : Z * Z)
    (sel sel' : list string) :
  (forall l, In l sel <-> In l sel') ->
  filtered_df df s e hr sel = filtered_df df s e hr sel'.
Proof.
  intro Hsel. rewrite !filtered_df_filter. apply filter_ext. intro r.
  apply eq_true_iff_eq. rewrite !passes_spec. unfold label_selected.
  now rewrite Hsel.
Qed.

Lemma filtered_df_same_labels_witness :
  filtered_df sample_rows (day 4) (day 5) (9, 10) ["Cash"; "Other"]
  = filtered_df sample_rows (day 4) (day 5) (9, 10) ["Other"; "Cash"; "Cash"].
Proof.
  apply (filtered_df_same_labels sample_rows (day 4) (day 5) (9, 10)
           ["Cash"; "Other"] ["Other"; "Cash"; "Cash"]).
  intro l. cbn. tauto.
Defined.

(* ------------------------------------------------------------------ *)
(** ** Trips per payment label *)

Lemma count_key_labels (l : string) (fdf : list Row) :
  count_key l (map (fun r : Row => Some (payment_label r)) fdf)
  = Z.of_nat (List.length
                (filter (fun r : Row => String.eqb l (payment_label r)) fdf)).
Proof.
  unfold count_key. f_equal.
  induction fdf as [|r fdf IH]; cbn [map filter is_key]; [reflexivity|].
  destruct (String.eqb l (payment_label r)); cbn [List.length]; now rewrite IH.
Qed.

(** X16. The payment breakdown counts every trip of the view exactly once:
    it has one row per label that occurs, labels ascending, each with the
    number of trips of that label, and the counts add up to the number of
    trips of the view. *)
Theorem payment_counts_spec (fdf : list Row) :
  sum_counts (payment_counts fdf) = Z.of_nat (List.length fdf)
  /\ StronglySorted key_lt (payment_counts fdf)
  /\ (forall l n,
        In (l, n) (payment_counts fdf)
        <-> n = Z.of_nat
                  (List.length
                     (filter (fun r : Row => String.eqb l (payment_label r))
                             fdf))
            /\ 0 < n).
Proof.
  unfold payment_counts. split; [|split].
  - rewrite sum_counts_groupby. f_equal.
    rewrite filter_all, length_map; [reflexivity|].
    intros o Ho. apply in_map_iff in Ho as (r & <- & _). reflexivity.
  - apply groupby_size_sorted.
  - intros l n. rewrite groupby_size_spec, count_key_labels. reflexivity.
Qed.

(** X17. The payment breakdown of a filtered view lists only labels that
    are selected. *)
Theorem payment_counts_selected (df : list Row) (s e : Z) (hr : Z * Z)
    (sel : list string) (l : string) (n : Z) :
  In (l, n) (payment_counts (filtered_df df s e hr sel)) -> In l sel.
Proof.
  unfold payment_counts. rewrite groupby_size_spec, count_key_labels.
  intros [-> Hpos].
  destruct (filter _ (filtered_df df s e hr sel)) as [|r rest] eqn:E;
    [cbn in Hpos; lia|].
  assert (Hr : In r (filter (fun r : Row => String.eqb l (payment_label r))
                            (filtered_df df s e hr sel)))
    by (rewrite E; now left).
  apply filter_In in Hr as [Hr El]. apply String.eqb_eq in El. subst l.
  rewrite filtered_df_filter in Hr. apply filter_In in Hr as [_ Hp].
  now apply passes_spec in Hp.
Qed.

Lemma payment_counts_selected_witness :
  In "Cash" ["Other"; "Cash"].
Proof.
  apply (payment_counts_selected sample_rows (day 4) (day 5) (9, 10)
           ["Other"; "Cash"] "Cash" 1).
  vm_compute. left. reflexivity.
Defined.

(* ------------------------------------------------------------------ *)
(** ** The frame of the distance histogram *)

Lemma le_not_nan (x y : float) : (x <=? y)%float = true -> is_nan x = false.
Proof.
  intro H. apply F64Facts.not_nan_spec. intro E.
  rewrite leb_spec, E in H. discriminate H.
Qed.

(** X18. The histogram is drawn from exactly the trips of the view whose
    distance is at most 20, in the order of the view; a trip with a missing
    distance is left out. *)
Theorem histogram_rows_spec (fdf : list Row) :
  histogram_rows fdf
  = filter (fun r : Row => (trip_distance r <=? 20)%float) fdf
  /\ (forall r, In r (histogram_rows fdf)
                <-> In r fdf /\ (trip_distance r <=? 20)%float = true)
  /\ (forall r, In r (histogram_rows fdf) ->
                is_nan (trip_distance r) = false).
Proof.
  assert (E : histogram_rows fdf
              = filter (fun r : Row => (trip_distance r <=? 20)%float) fdf).
  { unfold histogram_rows, le_scalar_f, col.
    rewrite map_map, getitem_mask_map. reflexivity. }
  split; [exact E|]. rewrite E. split.
  - intro r. apply filter_In.
  - intros r Hr. apply filter_In in Hr as [_ Hr]. exact (le_not_nan _ _ Hr).
Qed.

(* ------------------------------------------------------------------ *)
(** ** More on the top pickup zones *)

Lemma sorted_keys_NoDup (l : list (string * Z)) :
  StronglySorted key_lt l -> NoDup (map fst l).
Proof.
  induction 1 as [|x l Hs IH Hall]; cbn [map]; constructor; [|exact IH].
  intro Hin. apply in_map_iff in Hin as (y & E & Hy).
  rewrite Forall_forall in Hall. specialize (Hall y Hy).
  unfold key_lt in Hall. rewrite E in Hall.
  exact (compare_Lt_neq _ _ Hall eq_refl).
Qed.

(** X19. No zone is listed twice: in every result of the top-zones
    aggregate the zone names are pairwise different, also when several
    location ids carry the same name. *)
Theorem top_zones_distinct_names (n : nat) (fdf : list Row)
    (zones : list ZoneRow) (out : list (string * Z)) :
  top_n_zones n fdf zones out -> NoDup (map fst out).
Proof.
  intros (sorted & [Hperm _] & ->). unfold head.
  assert (Hnd : NoDup (map fst sorted)).
  { apply (Permutation_NoDup (Permutation_map fst Hperm)).
    apply sorted_keys_NoDup, groupby_size_sorted. }
  rewrite <- (firstn_skipn n sorted), map_app in Hnd.
  exact (NoDup_app_remove_r _ _ Hnd).
Qed.

Lemma top_zones_distinct_names_witness :
  NoDup (map fst (head 10 (sort_desc true (zone_counts abc_trips abc_zones)))).
Proof.
  apply (top_zones_distinct_names 10 abc_trips abc_zones).
  apply top_n_zones_exists.
Defined.

Lemma groupby_size_skip_missing (k1 k2 nones : list (option string)) :
  Forall (fun o => o = None) nones ->
  groupby_size (k1 ++ nones ++ k2) = groupby_size (k1 ++ k2).
Proof.
  intro Hn. unfold groupby_size. rewrite !fold_left_app. f_equal.
  generalize (fold_left (fun acc k => match k with
                                      | Some k0 => bump k0 acc
                                      | None => acc
                                      end) k1 []).
  induction Hn as [|o nones -> _ IH]; intro acc; cbn [fold_left]; auto.
Qed.

(** X20. A trip is counted under a zone name only: when every zone its
    pickup location id is joined to has a missing name (a cell N/A of the
    lookup), the zone counts and the top zones are those of the view
    without the trip. *)
Theorem zone_counts_skip_unnamed (before after : list Row) (t : Row)
    (zones : list ZoneRow) :
  (forall z, In z zones -> PULocationID t = Some (LocationID z) ->
             Zone z = None) ->
  zone_counts (before ++ t :: after) zones
  = zone_counts (before ++ after) zones
  /\ (forall n out, top_n_zones n (before ++ t :: after) zones out
                    <-> top_n_zones n (before ++ after) zones out).
Proof.
  intro Hun.
  assert (E : zone_counts (before ++ t :: after) zones
              = zone_counts (before ++ after) zones).
  { unfold zone_counts.
    change (t :: after) with ([t] ++ after)%list.
    rewrite !merge_app, !map_app. apply groupby_size_skip_missing.
    apply Forall_forall. intros o Ho.
    apply in_map_iff in Ho as ([t' z] & <- & Hp).
    apply merge_In in Hp as (Ht & Hz & Hpu). cbn [snd].
    destruct Ht as [<-|[]]. now apply Hun. }
  split; [exact E|].
  intros n out. unfold top_n_zones. now rewrite E.
Qed.

Lemma zone_counts_skip_unnamed_witness :
  zone_counts ([trip_from 1] ++ trip_from 264 :: [trip_from 2])
              (mkZone 264 (Some "Unknown") None None :: abc_zones)
  = zone_counts ([trip_from 1] ++ [trip_from 2])
                (mkZone 264 (Some "Unknown") None None :: abc_zones).
Proof.
  apply (zone_counts_skip_unnamed [trip_from 1] [trip_from 2]
           (trip_from 264)
           (mkZone 264 (Some "Unknown") None None :: abc_zones)).
  intros z [<-|[<-|[<-|[<-|[]]]]]; cbn; intro E;
    [reflexivity | discriminate | discriminate | discriminate].
Defined.

Lemma total_of_head_lt (k : string) (l : list (string * Z)) :
  Forall (fun p => String.compare k (fst p) = Lt) l -> total_of k l = 0.
Proof.
  intro H. apply total_of_absent.
  eapply Forall_impl; [|exact H].
  intros p Hp E. exact (compare_Lt_neq _ _ Hp (eq_sym E)).
Qed.

(** Two count tables with ascending keys and positive counts that hold the
    same total for every key are the same table. *)
Lemma sorted_counts_ext (l1 : list (string * Z)) :
  forall l2,
    StronglySorted key_lt l1 -> StronglySorted key_lt l2 ->
    Forall (fun p => 1 <= snd p) l1 -> Forall (fun p => 1 <= snd p) l2 ->
    (forall k, total_of k l1 = total_of k l2) -> l1 = l2.
Proof.
  induction l1 as [|[k1 n1] l1 IH]; intros l2 S1 S2 P1 P2 Htot.
  - destruct l2 as [|[k2 n2] l2]; [reflexivity|]. exfalso.
    inversion S2 as [|? ? _ Hall2]; subst. inversion P2 as [|? ? Hn2 _]; subst.
    specialize (Htot k2). cbn [total_of] in Htot.
    rewrite String.eqb_refl, (total_of_head_lt k2 l2 Hall2) in Htot.
    cbn in Hn2. lia.
  - inversion S1 as [|? ? S1' Hall1]; subst.
    inversion P1 as [|? ? Hn1 P1']; subst. cbn in Hn1.
    destruct l2 as [|[k2 n2] l2].
    + exfalso. specialize (Htot k1). cbn [total_of] in Htot.
      rewrite String.eqb_refl, (total_of_head_lt k1 l1 Hall1) in Htot. lia.
    + inversion S2 as [|? ? S2' Hall2]; subst.
      inversion P2 as [|? ? Hn2 P2']; subst. cbn in Hn2.
      assert (Hk : k1 = k2).
      { destruct (String.compare k1 k2) eqn:C.
        - now apply compare_Eq_eq.
        - exfalso. specialize (Htot k1). cbn [total_of] in Htot.
          rewrite String.eqb_refl, (total_of_head_lt k1 l1 Hall1) in Htot.
          destruct (String.eqb_spec k1 k2) as [->|_];
            [exact (compare_Lt_neq _ _ C eq_refl)|].
          rewrite total_of_head_lt in Htot; [lia|].
          eapply Forall_impl; [|exact Hall2].
          intros p Hp. exact (compare_Lt_trans _ _ _ C Hp).
        - exfalso. apply compare_Gt_Lt in C.
          specialize (Htot k2). cbn [total_of] in Htot.
          rewrite String.eqb_refl, (total_of_head_lt k2 l2 Hall2) in Htot.
          destruct (String.eqb_spec k2 k1) as [->|_];
            [exact (compare_Lt_neq _ _ C eq_refl)|].
          rewrite total_of_head_lt in Htot; [lia|].
          eapply Forall_impl; [|exact Hall1].
          intros p Hp. exact (compare_Lt_trans _ _ _ C Hp). }
      subst k2.
      assert (Hn : n1 = n2).
      { specialize (Htot k1). cbn [total_of] in Htot.
        rewrite String.eqb_refl, (total_of_head_lt k1 l1 Hall1),
          (total_of_head_lt k1 l2 Hall2) in Htot. lia. }
      subst n2. f_equal. apply IH; try assumption.
      intro k. specialize (Htot k). cbn [total_of] in Htot. lia.
Qed.

Lemma filter_perm {A : Type} (p : A -> bool) (l l' : list A) :
  Permutation l l' -> Permutation (filter p l) (filter p l').
Proof.
  induction 1 as [|x l l' _ IH|x y l|l l' l'' _ IH1 _ IH2]; cbn [filter].
  - constructor.
  - destruct (p x); [now apply perm_skip | exact IH].
  - destruct (p x), (p y); try reflexivity. apply perm_swap.
  - now transitivity (filter p l').
Qed.

Lemma count_key_perm (k : string) (keys keys' : list (option string)) :
  Permutation keys keys' -> count_key k keys = count_key k keys'.
Proof.
  intro H. unfold count_key. f_equal.
  apply Permutation_length. now apply filter_perm.
Qed.

Lemma groupby_size_perm (keys keys' : list (option string)) :
  Permutation keys keys' -> groupby_size keys = groupby_size keys'.
Proof.
  intro H. apply sorted_counts_ext;
    try apply groupby_size_sorted; try apply groupby_size_positive.
  intro k. rewrite !total_of_groupby. now apply count_key_perm.
Qed.

(** X21. The aggregates by zone and by payment label do not depend on the
    order of the trips: two views with the same trips in a different order
    have the same zone counts, the same results of the top-zones aggregate
    and the same payment breakdown. *)
Theorem counts_order_independent (fdf fdf' : list Row)
    (zones : list ZoneRow) :
  Permutation fdf fdf' ->
  zone_counts fdf zones = zone_counts fdf' zones
  /\ (forall n out, top_n_zones n fdf zones out
                    <-> top_n_zones n fdf' zones out)
  /\ payment_counts fdf = payment_counts fdf'.
Proof.
  intro Hperm.
  assert (E : zone_counts fdf zones = zone_counts fdf' zones).
  { unfold zone_counts, merge. apply groupby_size_perm, Permutation_map.
    now apply Permutation_flat_map. }
  split; [exact E|]. split.
  - intros n out. unfold top_n_zones. now rewrite E.
  - unfold payment_counts. apply groupby_size_perm.
    now apply Permutation_map.
Qed.

Lemma counts_order_independent_witness :
  zone_counts [trip_from 1; trip_from 2] abc_zones
  = zone_counts [trip_from 2; trip_from 1] abc_zones.
Proof.
  apply (counts_order_independent [trip_from 1; trip_from 2]
           [trip_from 2; trip_from 1] abc_zones).
  apply perm_swap.
Defined.

(* ------------------------------------------------------------------ *)
(** ** Grouping by any ordered key *)

Section GroupByFacts.
Context {K V : Type} (cmp : K -> K -> comparison).
Hypothesis cmp_eq : forall a b, cmp a b = Eq <-> a = b.
Hypothesis cmp_trans :
  forall a b c, cmp a b = Lt -> cmp b c = Lt -> cmp a c = Lt.
Hypothesis cmp_gt : forall a b, cmp a b = Gt -> cmp b a = Lt.

Local Abbreviation sorted := (StronglySorted (@group_lt K V cmp)).

Lemma cmp_lt_neq (a b : K) : cmp a b = Lt -> cmp a b <> Eq.
Proof. congruence. Qed.

Lemma held_cons (k : K) (g : K * list V) (acc : list (K * list V)) :
  held_for cmp k (g :: acc)
  = (match cmp k (fst g) with Eq => snd g | _ => [] end
     ++ held_for cmp k acc)%list.
Proof. reflexivity. Qed.

Lemma held_absent (k : K) (acc : list (K * list V)) :
  Forall (fun g => cmp k (fst g) <> Eq) acc -> held_for cmp k acc = [].
Proof.
  induction 1 as [|g acc Hg _ IH]; [reflexivity|].
  rewrite held_cons, IH.
  destruct (cmp k (fst g)); [congruence | reflexivity | reflexivity].
Qed.

Lemma held_above (k : K) (acc : list (K * list V)) :
  Forall (fun g => cmp k (fst g) = Lt) acc -> held_for cmp k acc = [].
Proof.
  intro H. apply held_absent.
  eapply Forall_impl; [|exact H]. intros g Hg. congruence.
Qed.

Lemma add_to_group_Forall (Q : K -> Prop) (k : K) (v : V)
    (acc : list (K * list V)) :
  Q k -> Forall (fun g => Q (fst g)) acc ->
  Forall (fun g => Q (fst g)) (add_to_group cmp k v acc).
Proof.
  intros Qk. induction 1 as [|[k0 vs] rest Hx Hr IH]; cbn [add_to_group].
  - repeat constructor. exact Qk.
  - destruct (cmp k k0).
    + constructor; assumption.
    + constructor; [exact Qk | constructor; assumption].
    + constructor; assumption.
Qed.

Lemma add_to_group_sorted (k : K) (v : V) (acc : list (K * list V)) :
  sorted acc -> sorted (add_to_group cmp k v acc).
Proof.
  induction 1 as [|[k0 vs] rest Hs IH Hall]; cbn [add_to_group].
  - repeat constructor.
  - destruct (cmp k k0) eqn:E.
    + constructor; [exact Hs | exact Hall].
    + constructor; [constructor; assumption|].
      constructor; [exact E|].
      eapply Forall_impl; [|exact Hall].
      intros g Hg. exact (cmp_trans _ _ _ E Hg).
    + constructor; [exact IH|].
      apply (add_to_group_Forall (fun x => cmp k0 x = Lt));
        [exact (cmp_gt _ _ E) | exact Hall].
Qed.

Lemma held_add (k k' : K) (v : V) (acc : list (K * list V)) :
  sorted acc ->
  held_for cmp k' (add_to_group cmp k v acc)
  = (held_for cmp k' acc
     ++ match cmp k' k with Eq => [v] | _ => [] end)%list.
Proof.
  induction 1 as [|[k0 vs] rest Hs IH Hall]; cbn [add_to_group].
  - rewrite held_cons. cbn [fst snd held_for flat_map].
    now rewrite app_nil_r.
  - destruct (cmp k k0) eqn:E.
    + apply cmp_eq in E. subst k0. rewrite !held_cons. cbn [fst snd].
      destruct (cmp k' k) eqn:E'; cbn [app]; try now rewrite app_nil_r.
      apply cmp_eq in E'. subst k'.
      rewrite (held_above k rest Hall). now rewrite !app_nil_r.
    + rewrite held_cons. cbn [fst snd].
      destruct (cmp k' k) eqn:E'; cbn [app]; try now rewrite app_nil_r.
      apply cmp_eq in E'. subst k'.
      rewrite held_above; [reflexivity|].
      constructor; [exact E|].
      eapply Forall_impl; [|exact Hall].
      intros g Hg. exact (cmp_trans _ _ _ E Hg).
    + rewrite !held_cons, IH. cbn [fst snd]. now rewrite app_assoc.
Qed.

Lemma groups_fold_sorted (rows : list (option K * V)) :
  forall acc,
    sorted acc ->
    sorted (fold_left (fun acc kv => match fst kv with
                                     | Some x => add_to_group cmp x (snd kv) acc
                                     | None => acc
                                     end) rows acc).
Proof.
  induction rows as [|[[x|] v] rows IH]; intros acc Hs; cbn [fold_left fst snd].
  - exact Hs.
  - apply IH, add_to_group_sorted, Hs.
  - exact (IH acc Hs).
Qed.

Lemma groups_fold_held (k : K) (rows : list (option K * V)) :
  forall acc,
    sorted acc ->
    held_for cmp k
      (fold_left (fun acc kv => match fst kv with
                                | Some x => add_to_group cmp x (snd kv) acc
                                | None => acc
                                end) rows acc)
    = (held_for cmp k acc ++ values_of cmp k rows)%list.
Proof.
  unfold values_of.
  induction rows as [|[[x|] v] rows IH]; intros acc Hs;
    cbn [fold_left fst snd filter is_group_key].
  - now rewrite app_nil_r.
  - rewrite (IH _ (add_to_group_sorted x v acc Hs)), (held_add x k v acc Hs).
    destruct (cmp k x); cbn [map snd]; rewrite <- app_assoc; reflexivity.
  - exact (IH acc Hs).
Qed.

Lemma groups_sorted (rows : list (option K * V)) : sorted (groups cmp rows).
Proof. apply groups_fold_sorted. constructor. Qed.

Lemma groups_held (k : K) (rows : list (option K * V)) :
  held_for cmp k (groups cmp rows) = values_of cmp k rows.
Proof.
  unfold groups. rewrite groups_fold_held; [reflexivity | constructor].
Qed.

Lemma add_to_group_nonempty (k : K) (v : V) (acc : list (K * list V)) :
  Forall (fun g => snd g <> []) acc ->
  Forall (fun g => snd g <> []) (add_to_group cmp k v acc).
Proof.
  induction 1 as [|[k0 vs] rest Hx Hr IH]; cbn [add_to_group].
  - repeat constructor. discriminate.
  - destruct (cmp k k0).
    + constructor; [|exact Hr]. cbn. destruct vs; discriminate.
    + constructor; [discriminate | constructor; assumption].
    + constructor; assumption.
Qed.

Lemma groups_nonempty (rows : list (option K * V)) :
  Forall (fun g => snd g <> []) (groups cmp rows).
Proof.
  unfold groups.
  enough (H : forall acc,
             Forall (fun g : K * list V => snd g <> []) acc ->
             Forall (fun g => snd g <> [])
               (fold_left (fun acc kv => match fst kv with
                                         | Some x =>
                                             add_to_group cmp x (snd kv) acc
                                         | None => acc
                                         end) rows acc))
    by (apply H; constructor).
  induction rows as [|[[x|] v] rows IH]; intros acc Ha;
    cbn [fold_left fst snd]; auto using add_to_group_nonempty.
Qed.

Lemma held_sorted_In (k : K) (vs : list V) (acc : list (K * list V)) :
  sorted acc -> In (k, vs) acc -> held_for cmp k acc = vs.
Proof.
  induction 1 as [|[k0 vs0] rest Hs IH Hall]; intro Hin; [destruct Hin|].
  rewrite held_cons. cbn [fst snd]. destruct Hin as [E|Hin].
  - injection E as -> ->.
    rewrite (proj2 (cmp_eq k k) eq_refl), (held_above k rest Hall).
    apply app_nil_r.
  - rewrite (IH Hin).
    rewrite Forall_forall in Hall. specialize (Hall _ Hin).
    unfold group_lt in Hall. cbn [fst] in Hall.
    destruct (cmp k k0) eqn:E; try reflexivity.
    apply cmp_eq in E. subst k0.
    rewrite (proj2 (cmp_eq k k) eq_refl) in Hall. discriminate.
Qed.

Lemma held_present (k : K) (acc : list (K * list V)) :
  held_for cmp k acc <> [] -> exists vs, In (k, vs) acc.
Proof.
  induction acc as [|[k0 vs0] rest IH]; [intro H; now destruct H|].
  rewrite held_cons. cbn [fst snd].
  destruct (cmp k k0) eqn:E; cbn [app]; intro H.
  - apply cmp_eq in E. subst k0. exists vs0. now left.
  - destruct (IH H) as [vs Hvs]. exists vs. now right.
  - destruct (IH H) as [vs Hvs]. exists vs. now right.
Qed.

(** One group per key that occurs, holding the values of its rows in the
    order of the frame. *)
Lemma groups_spec (rows : list (option K * V)) (k : K) (vs : list V) :
  In (k, vs) (groups cmp rows) <-> vs = values_of cmp k rows /\ vs <> [].
Proof.
  split.
  - intro Hin. split.
    + rewrite <- groups_held. symmetry.
      apply held_sorted_In; [apply groups_sorted | exact Hin].
    + pose proof (groups_nonempty rows) as Hne.
      rewrite Forall_forall in Hne. exact (Hne _ Hin).
  - intros [-> Hne]. rewrite <- groups_held in Hne.
    destruct (held_present k _ Hne) as [vs Hvs].
    pose proof (held_sorted_In k vs _ (groups_sorted rows) Hvs) as E.
    rewrite groups_held in E. now rewrite E.
Qed.

End GroupByFacts.

Section GroupByCounts.
Context {K V : Type} (cmp : K -> K -> comparison).

Lemma add_to_group_total (k : K) (v : V) (acc : list (K * list V)) :
  List.length (flat_map snd (add_to_group cmp k v acc))
  = S (List.length (flat_map snd acc)).
Proof.
  induction acc as [|[k0 vs] rest IH]; cbn [add_to_group]; [reflexivity|].
  destruct (cmp k k0); cbn [flat_map snd]; rewrite ?length_app, ?IH;
    cbn [List.length]; lia.
Qed.

(** Every row with a key is in exactly one group. *)
Lemma groups_total (rows : list (option K * V)) :
  List.length (flat_map snd (groups cmp rows))
  = List.length (filter (fun kv => negb (isna_opt (fst kv))) rows).
Proof.
  unfold groups.
  enough (H : forall acc,
             List.length
               (flat_map snd
                  (fold_left (fun acc kv => match fst kv with
                                            | Some x =>
                                                add_to_group cmp x (snd kv) acc
                                            | None => acc
                                            end) rows acc))
             = (List.length (flat_map snd acc)
                + List.length
                    (filter (fun kv => negb (isna_opt (fst kv))) rows))%nat)
    by (rewrite H; reflexivity).
  induction rows as [|[[x|] v] rows IH]; intro acc;
    cbn [fold_left fst snd filter isna_opt negb List.length].
  - lia.
  - rewrite IH, add_to_group_total. lia.
  - apply IH.
Qed.

Lemma group_keys_NoDup (acc : list (K * list V)) :
  (forall a, cmp a a = Eq) ->
  StronglySorted (group_lt cmp) acc -> NoDup (map fst acc).
Proof.
  intros Hrefl. induction 1 as [|g acc Hs IH Hall]; cbn [map]; constructor;
    [|exact IH].
  intro Hin. apply in_map_iff in Hin as (g' & E & Hg').
  rewrite Forall_forall in Hall. specialize (Hall g' Hg').
  unfold group_lt in Hall. rewrite E, Hrefl in Hall. discriminate.
Qed.

End GroupByCounts.

Lemma StronglySorted_map {A B : Type} (R : B -> B -> Prop) (f : A -> B)
    (l : list A) :
  StronglySorted (fun a b => R (f a) (f b)) l -> StronglySorted R (map f l).
Proof.
  induction 1 as [|x l Hs IH Hall]; cbn [map]; constructor; [exact IH|].
  apply Forall_map. exact Hall.
Qed.

(** The two orders the dashboard groups by. *)
Lemma Zcompare_trans (a b c : Z) :
  (a ?= b) = Lt -> (b ?= c) = Lt -> (a ?= c) = Lt.
Proof. rewrite !Z.compare_lt_iff. lia. Qed.

Lemma Zcompare_gt (a b : Z) : (a ?= b) = Gt -> (b ?= a) = Lt.
Proof. rewrite Z.compare_gt_iff, Z.compare_lt_iff. lia. Qed.

Lemma compare_day_hour_eq (a b : string * Z) :
  compare_day_hour a b = Eq <-> a = b.
Proof.
  destruct a as [d h], b as [d' h']. unfold compare_day_hour. cbn [fst snd].
  destruct (String.compare d d') eqn:E.
  - apply compare_Eq_eq in E. subst d'. rewrite Z.compare_eq_iff.
    split; [now intros -> | now intros [= ->]].
  - split; [discriminate|]. intros [= -> ->].
    exfalso. exact (compare_Lt_neq _ _ E eq_refl).
  - split; [discriminate|]. intros [= -> ->].
    exfalso. exact (compare_Lt_neq _ _ (compare_Gt_Lt _ _ E) eq_refl).
Qed.

Lemma compare_day_hour_trans (a b c : string * Z) :
  compare_day_hour a b = Lt -> compare_day_hour b c = Lt ->
  compare_day_hour a c = Lt.
Proof.
  destruct a as [d1 h1], b as [d2 h2], c as [d3 h3].
  unfold compare_day_hour. cbn [fst snd].
  destruct (String.compare d1 d2) eqn:E12; try discriminate;
    destruct (String.compare d2 d3) eqn:E23; try discriminate; intros H1 H2.
  - apply compare_Eq_eq in E12, E23. subst d2 d3.
    rewrite (proj2 (compare_Eq_eq d1 d1) eq_refl).
    exact (Zcompare_trans _ _ _ H1 H2).
  - apply compare_Eq_eq in E12. subst d2. now rewrite E23.
  - apply compare_Eq_eq in E23. subst d3. now rewrite E12.
  - now rewrite (compare_Lt_trans _ _ _ E12 E23).
Qed.

Lemma compare_day_hour_gt (a b : string * Z) :
  compare_day_hour a b = Gt -> compare_day_hour b a = Lt.
Proof.
  destruct a as [d1 h1], b as [d2 h2].
  unfold compare_day_hour. cbn [fst snd].
  rewrite (String.compare_antisym d2 d1).
  destruct (String.compare d1 d2); cbn [CompOpp]; try discriminate.
  - apply Zcompare_gt.
  - reflexivity.
Qed.

(* ------------------------------------------------------------------ *)
(** ** Mean fare by hour, and trips by day and hour *)

Lemma hour_key_test (h : Z) (o : option Z) :
  is_group_key Z.compare h o = cmp_opt Z.eqb o (Some h).
Proof.
  destruct o as [h'|]; [|reflexivity]. cbn [is_group_key cmp_opt].
  destruct (Z.eqb_spec h' h) as [->|Hne]; [now rewrite Z.compare_refl|].
  destruct (h ?= h') eqn:E; try reflexivity.
  apply Z.compare_eq_iff in E. congruence.
Qed.

Lemma values_of_fares (h : Z) (fdf : list Row) :
  values_of Z.compare h
    (map (fun r : Row => (pickup_hour r, fare_amount r)) fdf)
  = fares_at h fdf.
Proof.
  unfold values_of, fares_at.
  induction fdf as [|r fdf IH]; cbn [map filter fst]; [reflexivity|].
  rewrite hour_key_test.
  destruct (cmp_opt Z.eqb (pickup_hour r) (Some h)); cbn [map snd];
    now rewrite IH.
Qed.

Lemma fares_at_nonempty (h : Z) (fdf : list Row) :
  fares_at h fdf <> [] <-> exists r, In r fdf /\ pickup_hour r = Some h.
Proof.
  unfold fares_at. split.
  - intro Hne.
    destruct (filter _ fdf) as [|r rest] eqn:E; [now destruct Hne|].
    assert (Hr : In r (filter (fun r : Row =>
                                 cmp_opt Z.eqb (pickup_hour r) (Some h)) fdf))
      by (rewrite E; now left).
    apply filter_In in Hr as [Hr Hk]. exists r. split; [exact Hr|].
    unfold cmp_opt in Hk. destruct (pickup_hour r) as [h'|]; [|discriminate].
    apply Z.eqb_eq in Hk. now subst.
  - intros (r & Hr & Eh) E.
    assert (Hin : In r (filter (fun r : Row =>
                                  cmp_opt Z.eqb (pickup_hour r) (Some h)) fdf)).
    { apply filter_In. split; [exact Hr|]. rewrite Eh. cbn. apply Z.eqb_refl. }
    apply (in_map (fun r : Row => fare_amount r)) in Hin.
    rewrite E in Hin. destruct Hin.
Qed.

(** X22. The fare-by-hour table has one row for each pickup hour that
    occurs in the view and none for an hour that does not (no zero rows are
    filled in); the hours ascend, and the value of an hour is the mean of
    the fares of the trips of that hour, taken in the order of the view. *)
Theorem fare_by_hour_spec (mean : list float -> float) (fdf : list Row) :
  StronglySorted (fun a b => fst a < fst b) (fare_by_hour mean fdf)
  /\ (forall h, In h (map fst (fare_by_hour mean fdf))
                <-> exists r, In r fdf /\ pickup_hour r = Some h)
  /\ (forall h m, In (h, m) (fare_by_hour mean fdf) ->
                  m = mean (fares_at h fdf)).
Proof.
  unfold fare_by_hour.
  set (rows := map (fun r : Row => (pickup_hour r, fare_amount r)) fdf).
  pose proof (groups_spec Z.compare Z.compare_eq_iff Zcompare_trans
                Zcompare_gt rows) as Hspec.
  split; [|split].
  - apply StronglySorted_map. cbn [fst].
    pose proof (groups_sorted Z.compare Zcompare_trans Zcompare_gt rows)
      as Hs.
    eapply StronglySorted_ind with (P := StronglySorted _); [| |exact Hs].
    + constructor.
    + intros g l _ IH Hall. constructor; [exact IH|].
      eapply Forall_impl; [|exact Hall].
      intros g' Hg'. now apply Z.compare_lt_iff.
  - intro h. rewrite <- fares_at_nonempty, <- values_of_fares.
    rewrite map_map. cbn [fst]. rewrite in_map_iff. split.
    + intros ([h' vs] & <- & Hg). cbn [fst].
      apply Hspec in Hg as [-> Hne]. exact Hne.
    + intro Hne. exists (h, values_of Z.compare h rows).
      split; [reflexivity|]. apply Hspec. split; [reflexivity | exact Hne].
  - intros h m Hin. apply in_map_iff in Hin as ([h' vs] & E & Hg).
    cbn [fst snd] in E. injection E as -> <-.
    apply Hspec in Hg as [-> _]. subst rows. now rewrite values_of_fares.
Qed.

Example fare_by_hour_sample :
  fare_by_hour series_mean sample_rows
  = [(9, 5%float); (10, 5%float); (17, 5%float)]
  /\ fare_by_hour series_mean [] = [].
Proof. vm_compute. split; reflexivity. Qed.

Lemma values_of_trips (d : string) (h : Z) (fdf : list Row) :
  List.length
    (values_of compare_day_hour (d, h)
       (map (fun r : Row => (day_hour_key r, tt)) fdf))
  = List.length (trips_at d h fdf).
Proof.
  unfold values_of, trips_at. rewrite length_map.
  induction fdf as [|r fdf IH]; cbn [map filter fst]; [reflexivity|].
  destruct (is_group_key compare_day_hour (d, h) (day_hour_key r));
    cbn [List.length]; now rewrite IH.
Qed.

Lemma sum_cells_groups (gs : list ((string * Z) * list unit)) :
  sum_cells (map (fun g => (fst g, Z.of_nat (List.length (snd g)))) gs)
  = Z.of_nat (List.length (flat_map snd gs)).
Proof.
  induction gs as [|g gs IH]; [reflexivity|].
  cbn [map flat_map sum_cells fold_right snd].
  fold (sum_cells (map (fun g => (fst g, Z.of_nat (List.length (snd g)))) gs)).
  rewrite IH, length_app. lia.
Qed.

Lemma heatmap_data_sum (fdf : list Row) :
  sum_cells (heatmap_data fdf)
  = Z.of_nat (List.length
                (filter (fun r : Row => negb (isna_opt (day_hour_key r))) fdf)).
Proof.
  unfold heatmap_data. rewrite sum_cells_groups, groups_total. f_equal.
  induction fdf as [|r fdf IH]; cbn [map filter fst]; [reflexivity|].
  destruct (negb (isna_opt (day_hour_key r))); cbn [List.length];
    now rewrite IH.
Qed.

(** X23. The day-and-hour table has one row for each pair of day of week
    and hour that occurs in the view, each with the number of its trips;
    no pair is listed twice, and the counts add up to the number of trips
    that have both a day and an hour. *)
Theorem heatmap_data_spec (fdf : list Row) :
  sum_cells (heatmap_data fdf)
  = Z.of_nat (List.length
                (filter (fun r : Row => negb (isna_opt (day_hour_key r))) fdf))
  /\ NoDup (map fst (heatmap_data fdf))
  /\ (forall d h n,
        In ((d, h), n) (heatmap_data fdf)
        <-> n = Z.of_nat (List.length (trips_at d h fdf)) /\ 0 < n).
Proof.
  split; [apply heatmap_data_sum|].
  unfold heatmap_data.
  set (rows := map (fun r : Row => (day_hour_key r, tt)) fdf).
  pose proof (groups_spec compare_day_hour compare_day_hour_eq
                compare_day_hour_trans compare_day_hour_gt rows) as Hspec.
  split.
  - rewrite map_map. cbn [fst].
    apply (group_keys_NoDup compare_day_hour).
    + intro a. now apply compare_day_hour_eq.
    + apply groups_sorted;
        [exact compare_day_hour_trans | exact compare_day_hour_gt].
  - intros d h n. rewrite <- values_of_trips. fold rows.
    rewrite in_map_iff. split.
    + intros ([[d' h'] vs] & E & Hg). cbn [fst snd] in E.
      injection E as -> -> <-. apply Hspec in Hg as [-> Hne].
      split; [reflexivity|].
      destruct (values_of compare_day_hour (d, h) rows);
        [now destruct Hne | cbn; lia].
    + intros [-> Hpos].
      exists ((d, h), values_of compare_day_hour (d, h) rows).
      split; [reflexivity|]. apply Hspec. split; [reflexivity|].
      intro E. rewrite E in Hpos. cbn in Hpos. lia.
Qed.

(** X24. On a view of the dashboard's frame every trip has a day and an
    hour, so the counts of the day-and-hour table add up to the number of
    trips of the view, the Total Trips of the key metrics. *)
Theorem heatmap_data_total (raw_df : list RawTrip) (s e : Z) (hr : Z * Z)
    (sel : list string) :
  sum_cells
    (heatmap_data (filtered_df (add_payment_label (clean raw_df)) s e hr sel))
  = Z.of_nat
      (List.length (filtered_df (add_payment_label (clean raw_df)) s e hr sel)).
Proof.
  rewrite heatmap_data_sum.
  f_equal. f_equal. apply filter_all. intros r Hr.
  rewrite filtered_df_filter in Hr. apply filter_In in Hr as [Hr _].
  destruct (dashboard_row_ok raw_df r Hr)
    as ((_ & _ & _ & _ & p & d & Ep & _) & Eh & Ed & _).
  unfold day_hour_key. rewrite Eh, Ed, Ep. reflexivity.
Qed.

(* ------------------------------------------------------------------ *)
(** ** The text of a count *)

Lemma group3_keeps_digits (n : nat) :
  forall l, (List.length l <= n)%nat ->
            filter not_comma (PyFormat.group3 l) = filter not_comma l.
Proof.
  induction n as [|n IH]; intros l Hlen.
  - destruct l; [reflexivity | cbn in Hlen; lia].
  - destruct l as [|a [|b [|c [|d rest]]]]; try reflexivity.
    change (PyFormat.group3 (a :: b :: c :: d :: rest))
      with (a :: b :: c :: ","%char :: PyFormat.group3 (d :: rest)).
    assert (E : filter not_comma (PyFormat.group3 (d :: rest))
                = filter not_comma (d :: rest))
      by (apply IH; cbn [List.length] in *; lia).
    cbn [filter] in *. change (not_comma ","%char) with false. cbv iota.
    now rewrite E.
Qed.

Lemma uint_digits_no_comma (d : Decimal.uint) :
  filter not_comma (list_ascii_of_string (NilEmpty.string_of_uint d))
  = list_ascii_of_string (NilEmpty.string_of_uint d).
Proof.
  induction d; cbn [NilEmpty.string_of_uint list_ascii_of_string filter];
    [reflexivity|..];
    match goal with
    | |- context [not_comma ?c] => change (not_comma c) with true
    end; cbv iota; now rewrite IHd.
Qed.

Lemma digits_no_comma (n : Z) :
  filter not_comma (PyFormat.digits n) = PyFormat.digits n.
Proof.
  unfold PyFormat.digits, NilZero.string_of_uint.
  destruct (N.to_uint (Z.to_N n)) eqn:E; try (rewrite <- E);
    try apply uint_digits_no_comma.
  reflexivity.
Qed.

Lemma int_comma_reads_back (n : Z) :
  read_count (PyFormat.int_comma n) = Some (Z.to_N n).
Proof.
  unfold read_count, PyFormat.int_comma, PyFormat.with_commas.
  rewrite list_ascii_of_string_of_list_ascii.
  rewrite filter_rev, (group3_keeps_digits _ _ (Nat.le_refl _)), filter_rev,
    rev_involutive, digits_no_comma.
  unfold PyFormat.digits. rewrite string_of_list_ascii_of_string.
  pose proof (DecimalN.Unsigned.of_to (Z.to_N n)) as Hof.
  destruct (N.to_uint (Z.to_N n)) eqn:Eu;
    [rewrite <- Hof; reflexivity|..];
    (rewrite NilZero.usu by discriminate; cbn [option_map]; now rewrite Hof).
Qed.

(** X25. The Total Trips card reads back as the number of trips of the
    view: dropping the thousands separators from its text and reading the
    digits gives the length of the view, whatever the view. *)
Theorem total_trips_reads_back (fdf : list Row) :
  read_count (total_trips (key_metrics fdf))
  = Some (N.of_nat (List.length fdf)).
Proof.
  unfold key_metrics. cbn [total_trips].
  rewrite int_comma_reads_back. f_equal. lia.
Qed.

Example int_comma_sample :
  PyFormat.int_comma 2824462 = "2,824,462"
  /\ read_count "2,824,462" = Some 2824462%N.
Proof. vm_compute. split; reflexivity. Qed.

(* ------------------------------------------------------------------ *)
(** ** The sign of a duration *)

Module F64Sign.

Lemma binary_round_aux_sign (s : bool) (m e : Z) (l : location) :
  0 <= m -> has_sign s (binary_round_aux prec emax s m e l).
Proof.
  intro H. unfold binary_round_aux.
  pose proof (F64Facts.shr_fexp_nonneg m e l H) as H1.
  destruct (shr_fexp prec emax m e l) as [mrs' e'] eqn:E1. cbn [fst] in H1.
  pose proof (F64Facts.shr_fexp_nonneg _ e' loc_Exact
                (F64Facts.round_nearest_even_nonneg _
                   (loc_of_shr_record mrs') H1)) as H2.
  destruct (shr_fexp prec emax _ e' loc_Exact) as [mrs'' e''] eqn:E2.
  cbn [fst] in H2.
  destruct (shr_m mrs'') as [|p|p]; [reflexivity | | lia].
  destruct (e'' <=? _); reflexivity.
Qed.

Lemma binary_normalize_sign (m e : Z) :
  0 <= m -> has_sign false (binary_normalize prec emax m e false).
Proof.
  intro H. destruct m as [|p|p]; [reflexivity | | lia].
  cbn [binary_normalize]. unfold binary_round.
  destruct (shl_align _ _ _). apply binary_round_aux_sign. lia.
Qed.

Lemma div_sign (x : spec_float) (m : positive) (e : Z) :
  has_sign false x -> has_sign false (SF64div x (S754_finite false m e)).
Proof.
  destruct x as [sx|sx| |sx mx ex]; cbn [has_sign]; intro Hx;
    try subst sx; try contradiction; try reflexivity.
  unfold SF64div, SFdiv.
  destruct (SFdiv_core_binary prec emax (Zpos mx) ex (Zpos m) e)
    as [[mz ez] lz] eqn:E.
  change (xorb false false) with false.
  apply binary_round_aux_sign.
  unfold SFdiv_core_binary in E.
  set (s' := _ - _ - _) in E.
  set (m' := match s' with Zpos _ => _ | Z0 => _ | Zneg _ => _ end) in E.
  assert (Hm : 0 <= m').
  { subst m'. destruct s' as [|q|q]; try lia.
    apply Z.shiftl_nonneg. lia. }
  pose proof (Z_div_mod m' (Zpos m) eq_refl) as Hd.
  destruct (Z.div_eucl m' (Zpos m)) as [q r].
  injection E as <- _ _. nia.
Qed.

Lemma of_Z_sign (z : Z) : 0 <= z -> has_sign false (Prim2SF (F64.of_Z z)).
Proof.
  intro H. destruct z as [|p|p]; [reflexivity | | lia].
  cbn [F64.of_Z]. rewrite of_uint63_spec. apply binary_normalize_sign.
  apply Uint63.to_Z_bounded.
Qed.

Lemma nonneg_of_sign (x : float) :
  has_sign false (Prim2SF x) -> (0 <=? x)%float = true.
Proof.
  rewrite leb_spec, F64Facts.zero_spec.
  destruct (Prim2SF x) as [s|s| |s m e]; cbn [has_sign]; intro H;
    try subst s; try contradiction; reflexivity.
Qed.

End F64Sign.

(** X26. The duration of every trip of the cleaned snapshot is a number
    (not NaN) and is not negative. *)
Theorem cleaned_duration_nonneg (df : list RawTrip) (t : Trip) :
  In t (clean df) ->
  is_nan (trip_duration_minutes t) = false
  /\ (0 <=? trip_duration_minutes t)%float = true.
Proof.
  unfold clean. intro Ht.
  apply in_map_iff in Ht as (r & <- & Hr).
  apply clean_rows_In in Hr as (_ & _ & _ & _ & _ & Ho & _).
  unfold keeps_order, cmp_opt in Ho.
  destruct (tpep_pickup_datetime r) as [p|] eqn:Ep; [|
    destruct (tpep_dropoff_datetime r); discriminate].
  destruct (tpep_dropoff_datetime r) as [d|] eqn:Ed; [|discriminate].
  cbn [derive trip_duration_minutes].
  unfold duration_minutes, total_seconds.
  rewrite Ep, Ed, us_per_second_float.
  split; [apply duration_not_nan|].
  apply F64Sign.nonneg_of_sign. rewrite !div_spec.
  change (Prim2SF 60%float) with (S754_finite false 8444249301319680 (-47)).
  change (Prim2SF 1000000%float)
    with (S754_finite false 8589934592000000 (-33)).
  apply F64Sign.div_sign, F64Sign.div_sign, F64Sign.of_Z_sign. lia.
Qed.

Lemma cleaned_duration_nonneg_witness :
  is_nan (trip_duration_minutes (derive (hd_raw sample_raw))) = false
  /\ (0 <=? trip_duration_minutes (derive (hd_raw sample_raw)))%float = true.
Proof.
  apply (cleaned_duration_nonneg sample_raw (derive (hd_raw sample_raw))).
  left. reflexivity.
Defined.
